(** * Differential-drive base controller (ubr_controllers::BaseController)

    A shallow embedding of [base_controller.cpp]: the command callback, the
    start and preempt predicates and the periodic [update] (timeout check,
    velocity ramp, wheel odometry, wheel command mixing, odometry record).
    The controller object is a record of its members; every operation maps
    the record before the call to the record after it.  The two wheel joints
    belong to the hardware layer: their feedback is refreshed between ticks
    ([feedback]) and the setpoints written to them are kept as a log.
    [init] and [publish], with the members only they touch, are embedded
    apart in [Shell]; subscription, advertisement and the base class
    [Controller] stay outside.

    Numbers.  The C++ code computes on [double].  The embedding is written
    once over an abstract arithmetic [Double F] and read at two carriers:

    - [R], exact real arithmetic (no rounding, no overflow, no NaN): the
      idealisation under which the algebraic properties are stated;
    - [option R], exact reals plus one absorbing element [None] standing for
      NaN, with the IEEE rules that every arithmetic operation on a NaN gives a
      NaN and every ordered comparison with a NaN is false.

    Division.  On both carriers a quotient of numbers is the total
    quotient of [R]; what a [double] division by zero gives is not modelled.
    A property that draws a definite value from a quotient by
    [track_width_] or [radians_per_meter_] either shows the quotient in its
    statement or assumes the divisor different from zero.

    Time.  [ros::Time] and [ros::Duration] are integer counts (seconds and
    nanoseconds); they are modelled as [Z] nanoseconds, compared exactly, and
    [toSec] converts a duration to a [double]. *)

From Stdlib Require Import String.
From Stdlib Require Import Reals Lra Lia ZArith List Bool.
Import ListNotations.

(** ** The arithmetic interface *)

Class Double (F : Type) := {
  lit  : R -> F;            (* a literal or an exactly converted number *)
  fadd : F -> F -> F;
  fsub : F -> F -> F;
  fmul : F -> F -> F;
  fdiv : F -> F -> F;
  fgt  : F -> F -> bool;    (* a > b  *)
  flt  : F -> F -> bool;    (* a < b  *)
  feq  : F -> F -> bool;    (* a == b *)
  fne  : F -> F -> bool;    (* a != b *)
  ffabs : F -> F;           (* fabs *)
  fcos : F -> F;
  fsin : F -> F
}.

Declare Scope dbl_scope.
Delimit Scope dbl_scope with D.
Notation "a + b" := (fadd a b) : dbl_scope.
Notation "a - b" := (fsub a b) : dbl_scope.
Notation "a * b" := (fmul a b) : dbl_scope.
Notation "a / b" := (fdiv a b) : dbl_scope.
Notation "a >? b" := (fgt a b) (at level 70, no associativity) : dbl_scope.
Notation "a <? b" := (flt a b) (at level 70, no associativity) : dbl_scope.
Notation "a ==? b" := (feq a b) (at level 70, no associativity) : dbl_scope.
Notation "a !=? b" := (fne a b) (at level 70, no associativity) : dbl_scope.

(** *** Exact reals *)

Definition Rgtb (a b : R) : bool := if Rlt_dec b a then true else false.
Definition Rltb (a b : R) : bool := if Rlt_dec a b then true else false.
Definition Reqb (a b : R) : bool := if Req_dec_T a b then true else false.

#[export] Instance Double_R : Double R := {|
  lit := fun r => r;
  fadd := Rplus; fsub := Rminus; fmul := Rmult; fdiv := Rdiv;
  fgt := Rgtb; flt := Rltb; feq := Reqb; fne := fun a b => negb (Reqb a b);
  ffabs := Rabs; fcos := cos; fsin := sin
|}.

(** *** Reals with NaN *)

Definition nan_or : Type := option R.
Definition NaN : nan_or := None.

Definition lift1 (f : R -> R) (a : nan_or) : nan_or :=
  match a with Some x => Some (f x) | None => None end.

Definition lift2 (f : R -> R -> R) (a b : nan_or) : nan_or :=
  match a, b with Some x, Some y => Some (f x y) | _, _ => None end.

(* an ordered comparison or [==]: false as soon as one side is a NaN *)
Definition cmp2 (f : R -> R -> bool) (a b : nan_or) : bool :=
  match a, b with Some x, Some y => f x y | _, _ => false end.

Definition is_nan (a : nan_or) : bool :=
  match a with None => true | Some _ => false end.

#[export] Instance Double_nan : Double nan_or := {|
  lit := fun r => Some r;
  fadd := lift2 Rplus; fsub := lift2 Rminus;
  fmul := lift2 Rmult; fdiv := lift2 Rdiv;
  fgt := cmp2 Rgtb; flt := cmp2 Rltb; feq := cmp2 Reqb;
  fne := fun a b => negb (cmp2 Reqb a b);
  ffabs := lift1 Rabs; fcos := lift1 cos; fsin := lift1 sin
|}.

(** ** Time *)

Definition Time : Type := Z.       (* ros::Time, in nanoseconds *)
Definition Duration : Type := Z.   (* ros::Duration, in nanoseconds *)

Definition toSec {F} `{Double F} (d : Duration) : F :=
  lit (IZR d / 1000000000)%R.

(** ** The controller's data *)

Section Controller.

Context {F : Type} `{Double F}.
Local Open Scope dbl_scope.

(** A wheel joint of the controller manager: the feedback the hardware layer
    publishes, and the velocity commands written to it, newest first, each
    with the effort argument of [setVelocityCommand]. *)
Record JointHandle := mkJointHandle {
  position : F;                  (* getPosition() *)
  velocity : F;                  (* getVelocity() *)
  commands : list (F * F)        (* setVelocityCommand(velocity, effort) *)
}.

Definition setVelocityCommand (v e : F) (j : JointHandle) : JointHandle :=
  mkJointHandle (position j) (velocity j) ((v, e) :: commands j).

(** The fields of [nav_msgs::Odometry odom_] the controller computes on. *)
Record Odometry := mkOdometry {
  position_x : F;           (* pose.pose.position.x *)
  position_y : F;           (* pose.pose.position.y *)
  orientation_x : F;        (* pose.pose.orientation.x *)
  orientation_y : F;        (* pose.pose.orientation.y *)
  orientation_z : F;        (* pose.pose.orientation.z *)
  orientation_w : F;        (* pose.pose.orientation.w *)
  twist_linear_x : F;       (* twist.twist.linear.x *)
  twist_angular_z : F       (* twist.twist.angular.z *)
}.

(** The members of [BaseController] used by the control loop. *)
Record BaseController := mkBaseController {
  initialized_ : bool;
  left_ : JointHandle;      (* base_l_wheel_joint *)
  right_ : JointHandle;     (* base_r_wheel_joint *)
  left_last_position_ : F;
  right_last_position_ : F;
  last_update_ : Time;
  last_command_ : Time;
  timeout_ : Duration;
  track_width_ : F;
  radians_per_meter_ : F;
  moving_threshold_ : F;
  max_velocity_x_ : F;
  max_velocity_r_ : F;
  max_acceleration_x_ : F;
  max_acceleration_r_ : F;
  desired_x_ : F;
  desired_r_ : F;
  last_sent_x_ : F;
  last_sent_r_ : F;
  theta_ : F;
  odom_ : Odometry
}.

(** Assignment to one member. *)

Definition set_position_x (v : F) (o : Odometry) : Odometry :=
  mkOdometry v (position_y o) (orientation_x o) (orientation_y o)
    (orientation_z o) (orientation_w o) (twist_linear_x o)
    (twist_angular_z o).

Definition set_position_y (v : F) (o : Odometry) : Odometry :=
  mkOdometry (position_x o) v (orientation_x o) (orientation_y o)
    (orientation_z o) (orientation_w o) (twist_linear_x o)
    (twist_angular_z o).

Definition set_orientation_z (v : F) (o : Odometry) : Odometry :=
  mkOdometry (position_x o) (position_y o) (orientation_x o)
    (orientation_y o) v (orientation_w o) (twist_linear_x o)
    (twist_angular_z o).

Definition set_orientation_w (v : F) (o : Odometry) : Odometry :=
  mkOdometry (position_x o) (position_y o) (orientation_x o)
    (orientation_y o) (orientation_z o) v (twist_linear_x o)
    (twist_angular_z o).

Definition set_twist_linear_x (v : F) (o : Odometry) : Odometry :=
  mkOdometry (position_x o) (position_y o) (orientation_x o)
    (orientation_y o) (orientation_z o) (orientation_w o) v
    (twist_angular_z o).

Definition set_twist_angular_z (v : F) (o : Odometry) : Odometry :=
  mkOdometry (position_x o) (position_y o) (orientation_x o)
    (orientation_y o) (orientation_z o) (orientation_w o)
    (twist_linear_x o) v.

Definition set_left_ (v : JointHandle) (s : BaseController) : BaseController :=
  mkBaseController (initialized_ s) v (right_ s) (left_last_position_ s)
    (right_last_position_ s) (last_update_ s) (last_command_ s)
    (timeout_ s) (track_width_ s) (radians_per_meter_ s)
    (moving_threshold_ s) (max_velocity_x_ s) (max_velocity_r_ s)
    (max_acceleration_x_ s) (max_acceleration_r_ s) (desired_x_ s)
    (desired_r_ s) (last_sent_x_ s) (last_sent_r_ s) (theta_ s) (odom_ s).

Definition set_right_ (v : JointHandle) (s : BaseController) : BaseController :=
  mkBaseController (initialized_ s) (left_ s) v (left_last_position_ s)
    (right_last_position_ s) (last_update_ s) (last_command_ s)
    (timeout_ s) (track_width_ s) (radians_per_meter_ s)
    (moving_threshold_ s) (max_velocity_x_ s) (max_velocity_r_ s)
    (max_acceleration_x_ s) (max_acceleration_r_ s) (desired_x_ s)
    (desired_r_ s) (last_sent_x_ s) (last_sent_r_ s) (theta_ s) (odom_ s).

Definition set_left_last_position_ (v : F) (s : BaseController) : BaseController :=
  mkBaseController (initialized_ s) (left_ s) (right_ s) v
    (right_last_position_ s) (last_update_ s) (last_command_ s)
    (timeout_ s) (track_width_ s) (radians_per_meter_ s)
    (moving_threshold_ s) (max_velocity_x_ s) (max_velocity_r_ s)
    (max_acceleration_x_ s) (max_acceleration_r_ s) (desired_x_ s)
    (desired_r_ s) (last_sent_x_ s) (last_sent_r_ s) (theta_ s) (odom_ s).

Definition set_right_last_position_ (v : F) (s : BaseController) : BaseController :=
  mkBaseController (initialized_ s) (left_ s) (right_ s)
    (left_last_position_ s) v (last_update_ s) (last_command_ s)
    (timeout_ s) (track_width_ s) (radians_per_meter_ s)
    (moving_threshold_ s) (max_velocity_x_ s) (max_velocity_r_ s)
    (max_acceleration_x_ s) (max_acceleration_r_ s) (desired_x_ s)
    (desired_r_ s) (last_sent_x_ s) (last_sent_r_ s) (theta_ s) (odom_ s).

Definition set_last_update_ (v : Time) (s : BaseController) : BaseController :=
  mkBaseController (initialized_ s) (left_ s) (right_ s)
    (left_last_position_ s) (right_last_position_ s) v (last_command_ s)
    (timeout_ s) (track_width_ s) (radians_per_meter_ s)
    (moving_threshold_ s) (max_velocity_x_ s) (max_velocity_r_ s)
    (max_acceleration_x_ s) (max_acceleration_r_ s) (desired_x_ s)
    (desired_r_ s) (last_sent_x_ s) (last_sent_r_ s) (theta_ s) (odom_ s).

Definition set_last_command_ (v : Time) (s : BaseController) : BaseController :=
  mkBaseController (initialized_ s) (left_ s) (right_ s)
    (left_last_position_ s) (right_last_position_ s) (last_update_ s) v
    (timeout_ s) (track_width_ s) (radians_per_meter_ s)
    (moving_threshold_ s) (max_velocity_x_ s) (max_velocity_r_ s)
    (max_acceleration_x_ s) (max_acceleration_r_ s) (desired_x_ s)
    (desired_r_ s) (last_sent_x_ s) (last_sent_r_ s) (theta_ s) (odom_ s).

Definition set_desired_x_ (v : F) (s : BaseController) : BaseController :=
  mkBaseController (initialized_ s) (left_ s) (right_ s)
    (left_last_position_ s) (right_last_position_ s) (last_update_ s)
    (last_command_ s) (timeout_ s) (track_width_ s) (radians_per_meter_ s)
    (moving_threshold_ s) (max_velocity_x_ s) (max_velocity_r_ s)
    (max_acceleration_x_ s) (max_acceleration_r_ s) v (desired_r_ s)
    (last_sent_x_ s) (last_sent_r_ s) (theta_ s) (odom_ s).

Definition set_desired_r_ (v : F) (s : BaseController) : BaseController :=
  mkBaseController (initialized_ s) (left_ s) (right_ s)
    (left_last_position_ s) (right_last_position_ s) (last_update_ s)
    (last_command_ s) (timeout_ s) (track_width_ s) (radians_per_meter_ s)
    (moving_threshold_ s) (max_velocity_x_ s) (max_velocity_r_ s)
    (max_acceleration_x_ s) (max_acceleration_r_ s) (desired_x_ s) v
    (last_sent_x_ s) (last_sent_r_ s) (theta_ s) (odom_ s).

Definition set_last_sent_x_ (v : F) (s : BaseController) : BaseController :=
  mkBaseController (initialized_ s) (left_ s) (right_ s)
    (left_last_position_ s) (right_last_position_ s) (last_update_ s)
    (last_command_ s) (timeout_ s) (track_width_ s) (radians_per_meter_ s)
    (moving_threshold_ s) (max_velocity_x_ s) (max_velocity_r_ s)
    (max_acceleration_x_ s) (max_acceleration_r_ s) (desired_x_ s)
    (desired_r_ s) v (last_sent_r_ s) (theta_ s) (odom_ s).

Definition set_last_sent_r_ (v : F) (s : BaseController) : BaseController :=
  mkBaseController (initialized_ s) (left_ s) (right_ s)
    (left_last_position_ s) (right_last_position_ s) (last_update_ s)
    (last_command_ s) (timeout_ s) (track_width_ s) (radians_per_meter_ s)
    (moving_threshold_ s) (max_velocity_x_ s) (max_velocity_r_ s)
    (max_acceleration_x_ s) (max_acceleration_r_ s) (desired_x_ s)
    (desired_r_ s) (last_sent_x_ s) v (theta_ s) (odom_ s).

Definition set_theta_ (v : F) (s : BaseController) : BaseController :=
  mkBaseController (initialized_ s) (left_ s) (right_ s)
    (left_last_position_ s) (right_last_position_ s) (last_update_ s)
    (last_command_ s) (timeout_ s) (track_width_ s) (radians_per_meter_ s)
    (moving_threshold_ s) (max_velocity_x_ s) (max_velocity_r_ s)
    (max_acceleration_x_ s) (max_acceleration_r_ s) (desired_x_ s)
    (desired_r_ s) (last_sent_x_ s) (last_sent_r_ s) v (odom_ s).

Definition set_odom_ (v : Odometry) (s : BaseController) : BaseController :=
  mkBaseController (initialized_ s) (left_ s) (right_ s)
    (left_last_position_ s) (right_last_position_ s) (last_update_ s)
    (last_command_ s) (timeout_ s) (track_width_ s) (radians_per_meter_ s)
    (moving_threshold_ s) (max_velocity_x_ s) (max_velocity_r_ s)
    (max_acceleration_x_ s) (max_acceleration_r_ s) (desired_x_ s)
    (desired_r_ s) (last_sent_x_ s) (last_sent_r_ s) (theta_ s) v.

(** ** The operations *)

(** [BaseController::command]: a twist message arrives at time [t]
    ([ros::Time::now()] in the callback).  The request to the manager to
    start this controller is outside the model. *)
Definition command (t : Time) (linear_x angular_z : F) (s : BaseController)
  : BaseController :=
  if negb (initialized_ s) then s
  else
    let s := set_last_command_ t s in
    let s := set_desired_x_ linear_x s in
    set_desired_r_ angular_z s.

(** [BaseController::start], called at time [t]. *)
Definition start (t : Time) (s : BaseController) : bool :=
  if negb (initialized_ s) then false
  else if (t - last_command_ s >=? timeout_ s)%Z then false
  else true.

(** [BaseController::preempt]. *)
Definition preempt (force : bool) (s : BaseController) : bool :=
  (* If we have timed out, certainly preempt *)
  if (last_update_ s - last_command_ s >=? timeout_ s)%Z then true
  (* If not moving, preempt *)
  else if (last_sent_x_ s ==? lit 0) && (last_sent_r_ s ==? lit 0) then true
  (* If forced, preempt *)
  else if force then true
  else false.

(** *** The stages of [BaseController::update] *)

(** "See if we have timed out and need to stop". *)
Definition stop_on_timeout (now : Time) (s : BaseController) : BaseController :=
  if (now - last_command_ s >=? timeout_ s)%Z then
    let s := set_desired_r_ (lit 0) s in
    set_desired_x_ (lit 0) s
  else s.

(** "Do velocity acceleration/limiting", for one axis.  The source writes
    this block twice, once on [desired_x_], [last_sent_x_] and
    [max_acceleration_x_] and once on the [_r_] members. *)
Definition ramp (desired last_sent max_acceleration elapsed : F) : F :=
  if desired >? last_sent then
    let last_sent := last_sent + max_acceleration * elapsed in
    if last_sent >? desired then desired else last_sent
  else
    let last_sent := last_sent - max_acceleration * elapsed in
    if last_sent <? desired then desired else last_sent.

Definition limit_velocity (now : Time) (s : BaseController) : BaseController :=
  let s := set_last_sent_x_
             (ramp (desired_x_ s) (last_sent_x_ s) (max_acceleration_x_ s)
                   (toSec (now - last_update_ s)%Z)) s in
  set_last_sent_r_
    (ramp (desired_r_ s) (last_sent_r_ s) (max_acceleration_r_ s)
          (toSec (now - last_update_ s)%Z)) s.

(** The locals [left_dx], [right_dx], [left_vel] and [right_vel]: wheel
    travel since the previous tick and wheel speed, in meters. *)
Definition left_dx (s : BaseController) : F :=
  (position (left_ s) - left_last_position_ s) / radians_per_meter_ s.

Definition right_dx (s : BaseController) : F :=
  (position (right_ s) - right_last_position_ s) / radians_per_meter_ s.

Definition left_vel (s : BaseController) : F :=
  velocity (left_ s) / radians_per_meter_ s.

Definition right_vel (s : BaseController) : F :=
  velocity (right_ s) / radians_per_meter_ s.

(** Wheel feedback and dead reckoning; returns the locals [dx] and [dr]. *)
Definition integrate (s : BaseController) : F * F * BaseController :=
  let left_dx := left_dx s in
  let right_dx := right_dx s in
  let left_vel := left_vel s in
  let right_vel := right_vel s in
  let s := set_left_last_position_ (position (left_ s)) s in
  let s := set_right_last_position_ (position (right_ s)) s in
  (* Calculate forward and angular differences *)
  let d := (left_dx + right_dx) / lit 2 in
  let th := (right_dx - left_dx) / track_width_ s in
  (* Calculate forward and angular velocities *)
  let dx := (left_vel + right_vel) / lit 2 in
  let dr := (right_vel - left_vel) / track_width_ s in
  (* Update store odometry *)
  let s := set_odom_ (set_position_x
                        (position_x (odom_ s) + d * fcos (theta_ s))
                        (odom_ s)) s in
  let s := set_odom_ (set_position_y
                        (position_y (odom_ s) + d * fsin (theta_ s))
                        (odom_ s)) s in
  let s := set_theta_ (theta_ s + th) s in
  (dx, dr, s).

(** [BaseController::setCommand]: convert meters/sec into radians/sec.  The
    narrowing of the arguments to [float] is the identity here. *)
Definition setCommand (left right : F) (s : BaseController) : BaseController :=
  let s := set_left_
             (setVelocityCommand (left * radians_per_meter_ s) (lit 0)
                                 (left_ s)) s in
  set_right_
    (setVelocityCommand (right * radians_per_meter_ s) (lit 0) (right_ s)) s.

(** The condition of "Actually set command". *)
Definition moving (dx dr : F) (s : BaseController) : bool :=
  (last_sent_x_ s !=? lit 0) || (last_sent_r_ s !=? lit 0) ||
  (ffabs dx >? lit (5 / 100)) || (ffabs dr >? lit (5 / 100)).

Definition send (dx dr : F) (s : BaseController) : BaseController :=
  if moving dx dr s then
    setCommand (last_sent_x_ s - (last_sent_r_ s / lit 2 * track_width_ s))
               (last_sent_x_ s + (last_sent_r_ s / lit 2 * track_width_ s)) s
  else s.

(** "Update odometry information" and the time stamp of the tick. *)
Definition report (now : Time) (dx dr : F) (s : BaseController)
  : BaseController :=
  let s := set_odom_ (set_orientation_z (fsin (theta_ s / lit 2)) (odom_ s)) s in
  let s := set_odom_ (set_orientation_w (fcos (theta_ s / lit 2)) (odom_ s)) s in
  let s := set_odom_ (set_twist_linear_x dx (odom_ s)) s in
  let s := set_odom_ (set_twist_angular_z dr (odom_ s)) s in
  set_last_update_ now s.

(** [BaseController::update].  The argument [dt] is not used by the source:
    the elapsed time is [now - last_update_]. *)
Definition update (now : Time) (dt : Duration) (s : BaseController)
  : bool * BaseController :=
  if negb (initialized_ s) then (false, s)   (* should never really hit this *)
  else
    let s := stop_on_timeout now s in
    let s := limit_velocity now s in
    let '(dx, dr, s) := integrate s in
    let s := send dx dr s in
    let s := report now dx dr s in
    (true, s).

(** The rotation [BaseController::publish] hands to the transform
    broadcaster: [tf::Quaternion(x, y, z, w)] of the stored orientation. *)
Definition published_rotation (s : BaseController) : F * F * F * F :=
  (orientation_x (odom_ s), orientation_y (odom_ s),
   orientation_z (odom_ s), orientation_w (odom_ s)).

(** *** The hardware side *)

(** Between two ticks the hardware layer refreshes the feedback of both
    wheel joints. *)
Record WheelSample := mkWheelSample {
  leftPosition : F;
  rightPosition : F;
  leftVelocity : F;
  rightVelocity : F
}.

Definition feedback (w : WheelSample) (s : BaseController) : BaseController :=
  let s := set_left_ (mkJointHandle (leftPosition w) (leftVelocity w)
                                    (commands (left_ s))) s in
  set_right_ (mkJointHandle (rightPosition w) (rightVelocity w)
                            (commands (right_ s))) s.

(** One control tick: fresh feedback, then [update] as the manager calls
    it, with the time since the previous tick. *)
Definition tick (now : Time) (w : WheelSample) (s : BaseController)
  : bool * BaseController :=
  update now (now - last_update_ s)%Z (feedback w s).

(** A run of ticks, oldest first; the state after the last one. *)
Fixpoint run (ticks : list (Time * WheelSample)) (s : BaseController)
  : BaseController :=
  match ticks with
  | [] => s
  | (now, w) :: rest => run rest (snd (tick now w s))
  end.

End Controller.

Arguments JointHandle : clear implicits.
Arguments Odometry : clear implicits.
Arguments BaseController : clear implicits.
Arguments WheelSample : clear implicits.

(** * Vocabulary of the properties *)

Local Open Scope R_scope.

(** The least integer not below [x]. *)
Definition Rceil (x : R) : Z := (1 - up (- x))%Z.

(** The elapsed time the ramp of a tick at [now] works with, in seconds. *)
Definition elapsed (now : Time) (s : BaseController R) : R :=
  toSec (now - last_update_ s)%Z.

(** [n] calls of the velocity-ramp step with the same elapsed time. *)
Definition ramp_calls (n : nat) (now : Time) (s : BaseController R)
  : BaseController R :=
  Nat.iter n (limit_velocity now) s.

(** A sequence [v 0, v 1, ...] of issued velocities ramps to [desired] with
    steps of at most [h]: every step moves toward [desired] without passing
    it, changes the value by at most [h], lands exactly on [desired] when
    [desired] is within [h], and [ceil (|desired - v 0| / h)] steps reach
    [desired], where the sequence then stays. *)
Definition ramps_to (desired h : R) (v : nat -> R) : Prop :=
  (forall k : nat,
      (v k <= desired -> v k <= v (S k) <= desired) /\
      (desired <= v k -> desired <= v (S k) <= v k) /\
      Rabs (v (S k) - v k) <= h /\
      (Rabs (desired - v k) <= h -> v (S k) = desired)) /\
  (forall n : nat,
      (Z.to_nat (Rceil (Rabs (desired - v 0%nat) / h)) <= n)%nat ->
      v n = desired).

(** Ticks at a fixed period [e] after time [t], one per wheel sample. *)
Fixpoint periodic (e : Duration) (t : Time) (ws : list (WheelSample R))
  : list (Time * WheelSample R) :=
  match ws with
  | [] => []
  | w :: rest => ((t + e)%Z, w) :: periodic e (t + e)%Z rest
  end.

(** The controller after every tick of [ticks] measured a wheel travel of
    [d] on both wheels. *)
Fixpoint straight_run (d : R) (ticks : list (Time * WheelSample R))
    (s : BaseController R) : Prop :=
  match ticks with
  | [] => True
  | (now, w) :: rest =>
      left_dx (feedback w s) = d /\ right_dx (feedback w s) = d /\
      straight_run d rest (snd (tick now w s))
  end.

(** The velocity setpoint a joint received last. *)
Definition commanded (j : JointHandle R) : R :=
  match commands j with
  | (v, _) :: _ => v
  | [] => 0
  end.

(** The pose the controller persists. *)
Definition pose {F : Type} (s : BaseController F) : F * F * F :=
  (position_x (odom_ s), position_y (odom_ s), theta_ s).

(** ** Sample controllers *)

(** An initialized controller at time 0, wheels at rest at position 0, no
    command yet, zero pose, with the given track width, radians per meter,
    acceleration limits, timeout and moving threshold. *)
Definition configured {F : Type} `{Double F}
    (track_width radians_per_meter acc_x acc_r : R)
    (timeout : Duration) (threshold : R) : BaseController F :=
  mkBaseController true
    (mkJointHandle (lit 0) (lit 0) []) (mkJointHandle (lit 0) (lit 0) [])
    (lit 0) (lit 0) 0%Z 0%Z timeout
    (lit track_width) (lit radians_per_meter) (lit threshold)
    (lit 1) (lit (45 / 10)) (lit acc_x) (lit acc_r)
    (lit 0) (lit 0) (lit 0) (lit 0) (lit 0)
    (mkOdometry (lit 0) (lit 0) (lit 0) (lit 0) (lit 0) (lit 0) (lit 0) (lit 0)).

(** The defaults of [init]: track width 0.33665 m, 17.4978147374 rad/m,
    0.75 m/s^2 and 3.0 rad/s^2, timeout 0.25 s, moving threshold 0.0001. *)
Definition default_controller : BaseController R :=
  configured (33665 / 100000) (174978147374 / 10000000000) (75 / 100) 3
             250000000%Z (1 / 10000).

(** Unit track width and one radian per meter. *)
Definition unit_controller : BaseController R :=
  configured 1 1 1 1 250000000%Z (1 / 10000).

(** The default controller at rest with a command of 0.5 m/s and 1 rad/s. *)
Definition accelerating : BaseController R :=
  command 0%Z (1 / 2) 1 default_controller.

(** The default controller with an issued twist of 0.3 m/s and 1 rad/s. *)
Definition cruising : BaseController R :=
  set_last_sent_r_ 1 (set_last_sent_x_ (3 / 10) default_controller).

(** The default controller holding a commanded and issued linear velocity
    of 0.00005 m/s, half the moving threshold, with the wheels at rest. *)
Definition creeping : BaseController R :=
  set_last_sent_x_ (5 / 100000) (set_desired_x_ (5 / 100000) default_controller).

(** The default controller 0.2 s after a command of 1 m/s received at time
    0: one tick at 200 ms, wheels still at rest. *)
Definition driving : BaseController R :=
  snd (tick 200000000%Z (mkWheelSample 0 0 0 0)
            (command 0%Z 1 0 default_controller)).

(** The wheels of the default controller turned by 3 rad in opposite
    directions since the previous tick. *)
Definition spinning_default : BaseController R :=
  feedback (mkWheelSample 3 (- 3) 0 0) default_controller.

(** The left wheel of the unit controller one meter ahead, the right wheel
    one meter back. *)
Definition spinning_unit : BaseController R :=
  feedback (mkWheelSample 1 (- 1) 0 0) unit_controller.

(** The unit controller heading one radian off the x axis, and two ticks,
    0.1 s apart, each finding both wheels one meter further. *)
Definition heading_one : BaseController R := set_theta_ 1 unit_controller.

Definition two_straight_ticks : list (Time * WheelSample R) :=
  [ (100000000%Z, mkWheelSample 1 1 0 0);
    (200000000%Z, mkWheelSample 2 2 0 0) ].

(** The default controller over reals with NaN, and a wheel sample whose
    left position is a NaN. *)
Definition default_nan_controller : BaseController nan_or :=
  configured (33665 / 100000) (174978147374 / 10000000000) (75 / 100) 3
             250000000%Z (1 / 10000).

Definition nan_left_position : WheelSample nan_or :=
  mkWheelSample NaN (Some 0) (Some 0) (Some 0).

(** ** More sample controllers *)

(** [accelerating] with a previous tick stamped 200 ms. *)
Definition rewound : BaseController R :=
  set_last_update_ 200000000%Z accelerating.

(** Two wheel samples at rest, for two ticks. *)
Definition two_rest_samples : list (WheelSample R) :=
  [ mkWheelSample 0 0 0 0; mkWheelSample 0 0 0 0 ].

(** * The plugin shell: [init] and [publish]

    The members the control loop does not compute on, and the two entry
    points that touch them.  Pointers that may be NULL are a flag beside the
    pointee; a call that would dereference a NULL pointer has no result. *)

Module Shell.

Section Shell.

Context {F : Type} `{Double F}.
Local Open Scope dbl_scope.

(** The parameter server as a node handle shows it, by type of parameter. *)
Record NodeHandle := mkNodeHandle {
  doubles : string -> option F;
  bools : string -> option bool;
  strings : string -> option string
}.

(** [nh.param<T>(name, var, default)]: the stored value, else the default. *)
Definition param {A : Type} (lookup : string -> option A) (name : string)
    (default : A) : A :=
  match lookup name with
  | Some v => v
  | None => default
  end.

(** [ControllerManager::getJointHandle]: NULL for a joint it does not have. *)
Definition ControllerManager : Type := string -> option (JointHandle F).

(** What [publish] hands to the transform broadcaster. *)
Record StampedTransform := mkStampedTransform {
  origin : F * F * F;               (* tf::Vector3 *)
  rotation : F * F * F * F;         (* tf::Quaternion (x, y, z, w) *)
  stamp : Time;
  frame_id : string;
  child_frame_id : string
}.

Record Plugin := mkPlugin {
  core : BaseController F;          (* the members of the control loop *)
  left_null : bool;                 (* left_ == NULL *)
  right_null : bool;                (* right_ == NULL *)
  publish_tf_ : bool;
  odometry_frame_ : string;
  base_frame_ : string;
  broadcaster_null : bool;          (* broadcaster_ holds no object *)
  header_stamp : Time;              (* odom_.header.stamp *)
  odom_out : list (Time * Odometry F);   (* messages published on "odom" *)
  tf_out : list StampedTransform         (* transforms sent, newest first *)
}.

Definition set_core (c : BaseController F) (p : Plugin) : Plugin :=
  mkPlugin c (left_null p) (right_null p) (publish_tf_ p)
    (odometry_frame_ p) (base_frame_ p) (broadcaster_null p)
    (header_stamp p) (odom_out p) (tf_out p).

Definition set_initialized_ (v : bool) (s : BaseController F)
  : BaseController F :=
  mkBaseController v (left_ s) (right_ s)
    (left_last_position_ s) (right_last_position_ s) (last_update_ s)
    (last_command_ s) (timeout_ s) (track_width_ s) (radians_per_meter_ s)
    (moving_threshold_ s) (max_velocity_x_ s) (max_velocity_r_ s)
    (max_acceleration_x_ s) (max_acceleration_r_ s) (desired_x_ s)
    (desired_r_ s) (last_sent_x_ s) (last_sent_r_ s) (theta_ s) (odom_ s).

(** [BaseController::init], called at time [now].  [fromSec] is the
    constructor [ros::Duration(double)] of the ROS library.  The call of the
    base class [Controller::init] and the subscription and advertisement of
    topics are outside the model. *)
Definition init (fromSec : F -> Duration) (now : Time) (nh : NodeHandle)
    (manager : option ControllerManager) (p : Plugin) : bool * Plugin :=
  match manager with
  | None =>
      (* We absolutely need access to the controller manager *)
      (false, set_core (set_initialized_ false (core p)) p)
  | Some m =>
      (* Initialize joints *)
      match m "base_l_wheel_joint"%string, m "base_r_wheel_joint"%string with
      | Some l, Some r =>
          let c := core p in
          (* Get base parameters *)
          let track_width := param (doubles nh) "track_width" (lit (33665 / 100000)) in
          let radians_per_meter :=
            param (doubles nh) "radians_per_meter"
                  (lit (174978147374 / 10000000000)) in
          let publish_tf := param (bools nh) "publish_tf" true in
          let odometry_frame := param (strings nh) "odometry_frame" "odom"%string in
          let base_frame := param (strings nh) "base_frame" "base_link"%string in
          let moving_threshold :=
            param (doubles nh) "moving_threshold" (lit (1 / 10000)) in
          let t := param (doubles nh) "/timeout" (lit (25 / 100)) in
          (* Get limits of base controller *)
          let max_velocity_x := param (doubles nh) "max_velocity_x" (lit 1) in
          let max_velocity_r := param (doubles nh) "max_velocity_r" (lit (45 / 10)) in
          let max_acceleration_x :=
            param (doubles nh) "max_acceleration_x" (lit (75 / 100)) in
          let max_acceleration_r :=
            param (doubles nh) "max_acceleration_r" (lit 3) in
          (true,
           mkPlugin
             (mkBaseController true l r (position l) (position r) now
                (last_command_ c) (fromSec t) track_width radians_per_meter
                moving_threshold max_velocity_x max_velocity_r
                max_acceleration_x max_acceleration_r
                (desired_x_ c) (desired_r_ c) (last_sent_x_ c) (last_sent_r_ c)
                (theta_ c) (odom_ c))
             false false publish_tf odometry_frame base_frame
             (* if (publish_tf_) broadcaster_.reset(new ...) *)
             (if publish_tf then false else broadcaster_null p)
             (header_stamp p) (odom_out p) (tf_out p))
      | lj, rj =>
          (* Cannot get wheel joints *)
          let c := core p in
          let c := match lj with Some l => set_left_ l c | None => c end in
          let c := match rj with Some r => set_right_ r c | None => c end in
          (false,
           mkPlugin (set_initialized_ false c)
             (match lj with Some _ => false | None => true end)
             (match rj with Some _ => false | None => true end)
             (publish_tf_ p) (odometry_frame_ p) (base_frame_ p)
             (broadcaster_null p) (header_stamp p) (odom_out p) (tf_out p))
      end
  end.

(** [BaseController::publish]: "publish or perish". *)
Definition publish (time : Time) (p : Plugin) : option (bool * Plugin) :=
  let odom_out' := (time, odom_ (core p)) :: odom_out p in
  if publish_tf_ p then
    if broadcaster_null p then None
    else
      let o := odom_ (core p) in
      let transform :=
        mkStampedTransform
          (position_x o, position_y o, lit 0)
          (orientation_x o, orientation_y o, orientation_z o, orientation_w o)
          time (odometry_frame_ p) (base_frame_ p) in
      Some (true,
            mkPlugin (core p) (left_null p) (right_null p) (publish_tf_ p)
              (odometry_frame_ p) (base_frame_ p) (broadcaster_null p)
              time odom_out' (transform :: tf_out p))
  else
    Some (true,
          mkPlugin (core p) (left_null p) (right_null p) (publish_tf_ p)
            (odometry_frame_ p) (base_frame_ p) (broadcaster_null p)
            time odom_out' (tf_out p)).

(** [BaseController::update] on the whole object: past the [initialized_]
    test it reads [left_] and [right_]. *)
Definition update_object (now : Time) (dt : Duration) (p : Plugin)
  : option (bool * Plugin) :=
  if negb (initialized_ (core p)) then Some (false, p)
  else if left_null p || right_null p then None
  else Some (fst (update now dt (core p)),
             set_core (snd (update now dt (core p))) p).

(** The calls the manager, the command topic and the hardware layer make on
    an object, and a sequence of them run in order; [None] once a call
    dereferenced a NULL pointer. *)
Inductive Call :=
| Command (t : Time) (linear_x angular_z : F)
| Update (now : Time) (dt : Duration)
| Publish (time : Time)
| Feedback (w : WheelSample F).

Definition call (c : Call) (p : Plugin) : option Plugin :=
  match c with
  | Command t x r => Some (set_core (command t x r (core p)) p)
  | Update now dt => option_map snd (update_object now dt p)
  | Publish time => option_map snd (publish time p)
  | Feedback w =>
      if left_null p || right_null p then Some p
      else Some (set_core (feedback w (core p)) p)
  end.

Fixpoint calls (cs : list Call) (p : Plugin) : option Plugin :=
  match cs with
  | [] => Some p
  | c :: rest =>
      match call c p with
      | Some p' => calls rest p'
      | None => None
      end
  end.

End Shell.

Arguments NodeHandle : clear implicits.
Arguments StampedTransform : clear implicits.
Arguments Plugin : clear implicits.
Arguments Call : clear implicits.

End Shell.

(** ** More vocabulary *)

(** The members [update] never reads, assigned together. *)
Definition with_limits {F : Type}
    (max_velocity_x max_velocity_r moving_threshold : F)
    (s : BaseController F) : BaseController F :=
  mkBaseController (initialized_ s) (left_ s) (right_ s)
    (left_last_position_ s) (right_last_position_ s) (last_update_ s)
    (last_command_ s) (timeout_ s) (track_width_ s) (radians_per_meter_ s)
    moving_threshold max_velocity_x max_velocity_r
    (max_acceleration_x_ s) (max_acceleration_r_ s) (desired_x_ s)
    (desired_r_ s) (last_sent_x_ s) (last_sent_r_ s) (theta_ s) (odom_ s).

(** No pointer the object would dereference is NULL: the wheel joints of
    an initialized controller, and the broadcaster when transforms are to be
    published. *)
Definition ready {F : Type} (p : Shell.Plugin F) : Prop :=
  (initialized_ (Shell.core p) = true ->
   Shell.left_null p = false /\ Shell.right_null p = false) /\
  (Shell.publish_tf_ p = true -> Shell.broadcaster_null p = false).

(** A freshly constructed object around the default controller before
    [init]: not initialized, no joints, no broadcaster; a manager holding
    both wheel joints, the left one at 2 rad and the right one at 5 rad; an
    empty parameter server; and the duration constructor at the default
    timeout. *)
Definition blank : Shell.Plugin R :=
  Shell.mkPlugin (Shell.set_initialized_ false default_controller)
    true true false ""%string ""%string true 0%Z [] [].

Definition two_wheels : Shell.ControllerManager (F := R) :=
  fun name =>
    if String.eqb name "base_l_wheel_joint" then Some (mkJointHandle 2 0 [])
    else if String.eqb name "base_r_wheel_joint" then Some (mkJointHandle 5 0 [])
    else None.

Definition no_params : Shell.NodeHandle R :=
  Shell.mkNodeHandle (fun _ => None) (fun _ => None) (fun _ => None).

Definition quarter_second (t : R) : Duration := 250000000%Z.

(** [blank] after a successful [init] at time 0. *)
Definition started : Shell.Plugin R :=
  snd (Shell.init quarter_second 0%Z no_params (Some two_wheels) blank).

(** The default controller over reals with NaN, issuing 0.3 m/s, after a
    command whose linear velocity is a NaN. *)
Definition nan_commanded : BaseController nan_or :=
  command 0%Z NaN (Some 0)
          (set_last_sent_x_ (Some (3 / 10)) default_nan_controller).

(** One step of a ramped stop, from the issued velocity [old] to [new]
    with a step of at most [h]: [new] lies between [old] and zero, differs
    from [old] by at most [h], is zero when [old] is within [h] of zero, and
    is otherwise closer to zero by exactly [h]. *)
Definition steps_toward_zero (h old new : R) : Prop :=
  (0 <= old -> 0 <= new <= old) /\
  (old <= 0 -> old <= new <= 0) /\
  Rabs (new - old) <= h /\
  (Rabs old <= h -> new = 0) /\
  (h < Rabs old -> Rabs new = Rabs old - h).

(** What the odometry of a tick reads is made of numbers, and the two
    parameters it divides by are positive. *)
Definition odometry_inputs_are_numbers (s : BaseController nan_or) : Prop :=
  exists pl pr ll lr m t th : R,
    position (left_ s) = Some pl /\ position (right_ s) = Some pr /\
    left_last_position_ s = Some ll /\ right_last_position_ s = Some lr /\
    radians_per_meter_ s = Some m /\ 0 < m /\
    track_width_ s = Some t /\ 0 < t /\
    theta_ s = Some th.

(** The default controller over reals with NaN after a wheel sample made
    of numbers. *)
Definition turning_nan_controller : BaseController nan_or :=
  feedback (mkWheelSample (Some 3) (Some (- 3)) (Some 0) (Some 0))
           default_nan_controller.

(** * Frames of the stages of [update] *)

Section Frames.

Context {F : Type} `{Double F}.
Local Open Scope dbl_scope.
Implicit Types (s : BaseController F) (now : Time) (dt : Duration).

Lemma stop_on_timeout_late now s :
  (now - last_command_ s >= timeout_ s)%Z ->
  stop_on_timeout now s = set_desired_x_ (lit 0) (set_desired_r_ (lit 0) s).
Proof.
  intros Hl. unfold stop_on_timeout.
  destruct (Z.geb_spec (now - last_command_ s) (timeout_ s)); [reflexivity|lia].
Qed.

Lemma stop_on_timeout_fresh now s :
  (now - last_command_ s < timeout_ s)%Z ->
  stop_on_timeout now s = s.
Proof.
  intros Hl. unfold stop_on_timeout.
  destruct (Z.geb_spec (now - last_command_ s) (timeout_ s)); [lia|reflexivity].
Qed.

Lemma stop_on_timeout_frame now s :
  last_sent_x_ (stop_on_timeout now s) = last_sent_x_ s /\
  last_sent_r_ (stop_on_timeout now s) = last_sent_r_ s /\
  max_acceleration_x_ (stop_on_timeout now s) = max_acceleration_x_ s /\
  max_acceleration_r_ (stop_on_timeout now s) = max_acceleration_r_ s /\
  last_update_ (stop_on_timeout now s) = last_update_ s.
Proof.
  unfold stop_on_timeout.
  destruct (now - last_command_ s >=? timeout_ s)%Z; repeat split.
Qed.

Lemma send_issued (dx dr : F) s :
  last_sent_x_ (send dx dr s) = last_sent_x_ s /\
  last_sent_r_ (send dx dr s) = last_sent_r_ s /\
  desired_x_ (send dx dr s) = desired_x_ s /\
  desired_r_ (send dx dr s) = desired_r_ s.
Proof. unfold send. destruct (moving dx dr s); repeat split. Qed.

(** The state after a tick, stage by stage. *)
Lemma update_fst now dt s :
  initialized_ s = true -> fst (update now dt s) = true.
Proof. intros Hi. unfold update. rewrite Hi. reflexivity. Qed.

Lemma update_snd now dt s :
  initialized_ s = true ->
  snd (update now dt s) =
  let s1 := limit_velocity now (stop_on_timeout now s) in
  let dx := fst (fst (integrate s1)) in
  let dr := snd (fst (integrate s1)) in
  report now dx dr (send dx dr (snd (integrate s1))).
Proof. intros Hi. unfold update. rewrite Hi. reflexivity. Qed.

Lemma update_uninitialized now dt s :
  initialized_ s = false -> update now dt s = (false, s).
Proof. intros Hi. unfold update. rewrite Hi. reflexivity. Qed.

(** The part of the state the odometry reads is out of reach of the timeout
    check and of the ramp. *)
Lemma ramp_stages_frame now s :
  let s1 := limit_velocity now (stop_on_timeout now s) in
  odom_ s1 = odom_ s /\ theta_ s1 = theta_ s /\
  left_ s1 = left_ s /\ right_ s1 = right_ s /\
  left_last_position_ s1 = left_last_position_ s /\
  right_last_position_ s1 = right_last_position_ s /\
  radians_per_meter_ s1 = radians_per_meter_ s /\
  track_width_ s1 = track_width_ s.
Proof.
  unfold stop_on_timeout.
  destruct (now - last_command_ s >=? timeout_ s)%Z; repeat split.
Qed.

Lemma integrate_twist s :
  fst (fst (integrate s)) = (left_vel s + right_vel s) / lit 2 /\
  snd (fst (integrate s)) = (right_vel s - left_vel s) / track_width_ s.
Proof. split; reflexivity. Qed.

Lemma integrate_pose s :
  let d := (left_dx s + right_dx s) / lit 2 in
  let th := (right_dx s - left_dx s) / track_width_ s in
  odom_ (snd (integrate s)) =
    set_position_y (position_y (odom_ s) + d * fsin (theta_ s))
      (set_position_x (position_x (odom_ s) + d * fcos (theta_ s)) (odom_ s)) /\
  theta_ (snd (integrate s)) = theta_ s + th.
Proof. split; reflexivity. Qed.

Lemma send_pose (dx dr : F) s :
  odom_ (send dx dr s) = odom_ s /\ theta_ (send dx dr s) = theta_ s.
Proof. unfold send. destruct (moving dx dr s); split; reflexivity. Qed.

Lemma report_pose now (dx dr : F) s :
  odom_ (report now dx dr s) =
    set_twist_angular_z dr
      (set_twist_linear_x dx
         (set_orientation_w (fcos (theta_ s / lit 2))
            (set_orientation_z (fsin (theta_ s / lit 2)) (odom_ s)))) /\
  theta_ (report now dx dr s) = theta_ s.
Proof. split; reflexivity. Qed.

(** The odometry a tick stores, in terms of the state before the tick. *)
Lemma update_odometry now dt s :
  initialized_ s = true ->
  let s' := snd (update now dt s) in
  let d := (left_dx s + right_dx s) / lit 2 in
  let th := (right_dx s - left_dx s) / track_width_ s in
  position_x (odom_ s') = position_x (odom_ s) + d * fcos (theta_ s) /\
  position_y (odom_ s') = position_y (odom_ s) + d * fsin (theta_ s) /\
  theta_ s' = theta_ s + th /\
  orientation_x (odom_ s') = orientation_x (odom_ s) /\
  orientation_y (odom_ s') = orientation_y (odom_ s) /\
  orientation_z (odom_ s') = fsin ((theta_ s + th) / lit 2) /\
  orientation_w (odom_ s') = fcos ((theta_ s + th) / lit 2) /\
  twist_linear_x (odom_ s') = (left_vel s + right_vel s) / lit 2 /\
  twist_angular_z (odom_ s') = (right_vel s - left_vel s) / track_width_ s.
Proof.
  intros Hi. rewrite (update_snd now dt s Hi). cbv zeta.
  destruct (ramp_stages_frame now s) as (Ho & Ht & Hl & Hr & Hll & Hrl & Hm & Hw).
  set (s1 := limit_velocity now (stop_on_timeout now s)) in *.
  assert (Hldx : left_dx s1 = left_dx s)
    by (unfold left_dx; rewrite Hl, Hll, Hm; reflexivity).
  assert (Hrdx : right_dx s1 = right_dx s)
    by (unfold right_dx; rewrite Hr, Hrl, Hm; reflexivity).
  assert (Hlv : left_vel s1 = left_vel s)
    by (unfold left_vel; rewrite Hl, Hm; reflexivity).
  assert (Hrv : right_vel s1 = right_vel s)
    by (unfold right_vel; rewrite Hr, Hm; reflexivity).
  destruct (integrate_twist s1) as [Hdx Hdr].
  destruct (integrate_pose s1) as [Hio Hit].
  rewrite Hdx, Hdr.
  set (dx := (left_vel s1 + right_vel s1) / lit 2).
  set (dr := (right_vel s1 - left_vel s1) / track_width_ s1).
  destruct (report_pose now dx dr (send dx dr (snd (integrate s1)))) as [Hro Hrt].
  destruct (send_pose dx dr (snd (integrate s1))) as [Hso Hst].
  rewrite Hro, Hrt, Hso, Hst, Hio, Hit.
  unfold dx, dr.
  rewrite Ho, Ht, Hldx, Hrdx, Hlv, Hrv, Hw.
  repeat split.
Qed.

(** What else a tick leaves behind: the time stamp, the retained wheel
    positions, and the members it never assigns. *)
Lemma send_frame (dx dr : F) s :
  initialized_ (send dx dr s) = initialized_ s /\
  last_update_ (send dx dr s) = last_update_ s /\
  last_command_ (send dx dr s) = last_command_ s /\
  timeout_ (send dx dr s) = timeout_ s /\
  left_last_position_ (send dx dr s) = left_last_position_ s /\
  right_last_position_ (send dx dr s) = right_last_position_ s /\
  track_width_ (send dx dr s) = track_width_ s /\
  radians_per_meter_ (send dx dr s) = radians_per_meter_ s /\
  max_acceleration_x_ (send dx dr s) = max_acceleration_x_ s /\
  max_acceleration_r_ (send dx dr s) = max_acceleration_r_ s.
Proof. unfold send. destruct (moving dx dr s); repeat split. Qed.

Lemma update_frame now dt s :
  initialized_ s = true ->
  let s' := snd (update now dt s) in
  last_update_ s' = now /\
  left_last_position_ s' = position (left_ s) /\
  right_last_position_ s' = position (right_ s) /\
  initialized_ s' = true /\
  last_command_ s' = last_command_ s /\
  timeout_ s' = timeout_ s /\
  track_width_ s' = track_width_ s /\
  radians_per_meter_ s' = radians_per_meter_ s /\
  max_acceleration_x_ s' = max_acceleration_x_ s /\
  max_acceleration_r_ s' = max_acceleration_r_ s.
Proof.
  intros Hi. rewrite (update_snd now dt s Hi). cbv zeta.
  set (s1 := limit_velocity now (stop_on_timeout now s)).
  set (dx := fst (fst (integrate s1))). set (dr := snd (fst (integrate s1))).
  destruct (send_frame dx dr (snd (integrate s1)))
    as (S1 & S2 & S3 & S4 & S5 & S6 & S7 & S8 & S9 & S10).
  assert (Hs1 : initialized_ s1 = initialized_ s /\
                last_command_ s1 = last_command_ s /\
                timeout_ s1 = timeout_ s /\
                left_ s1 = left_ s /\ right_ s1 = right_ s /\
                track_width_ s1 = track_width_ s /\
                radians_per_meter_ s1 = radians_per_meter_ s /\
                max_acceleration_x_ s1 = max_acceleration_x_ s /\
                max_acceleration_r_ s1 = max_acceleration_r_ s).
  { unfold s1, stop_on_timeout.
    destruct (now - last_command_ s >=? timeout_ s)%Z; repeat split. }
  destruct Hs1 as (I1 & I2 & I3 & I4 & I5 & I6 & I7 & I8 & I9).
  split; [reflexivity|].
  split; [change (left_last_position_ (send dx dr (snd (integrate s1))) =
                  position (left_ s)); rewrite S5, <- I4; reflexivity|].
  split; [change (right_last_position_ (send dx dr (snd (integrate s1))) =
                  position (right_ s)); rewrite S6, <- I5; reflexivity|].
  split; [change (initialized_ (send dx dr (snd (integrate s1))) = true);
          rewrite S1, <- Hi, <- I1; reflexivity|].
  split; [change (last_command_ (send dx dr (snd (integrate s1))) =
                  last_command_ s); rewrite S3, <- I2; reflexivity|].
  split; [change (timeout_ (send dx dr (snd (integrate s1))) = timeout_ s);
          rewrite S4, <- I3; reflexivity|].
  split; [change (track_width_ (send dx dr (snd (integrate s1))) =
                  track_width_ s); rewrite S7, <- I6; reflexivity|].
  split; [change (radians_per_meter_ (send dx dr (snd (integrate s1))) =
                  radians_per_meter_ s); rewrite S8, <- I7; reflexivity|].
  split; [change (max_acceleration_x_ (send dx dr (snd (integrate s1))) =
                  max_acceleration_x_ s); rewrite S9, <- I8; reflexivity|].
  change (max_acceleration_r_ (send dx dr (snd (integrate s1))) =
          max_acceleration_r_ s); rewrite S10, <- I9; reflexivity.
Qed.

End Frames.

(** * Properties over exact real arithmetic *)

(** ** Comparisons *)

Lemma Rgtb_true (a b : R) : Rgtb a b = true <-> b < a.
Proof. unfold Rgtb; destruct (Rlt_dec b a); split; intros; try discriminate; tauto. Qed.

Lemma Rgtb_false (a b : R) : Rgtb a b = false <-> a <= b.
Proof.
  unfold Rgtb; destruct (Rlt_dec b a); split; intros; try discriminate;
    try reflexivity; lra.
Qed.

Lemma Rltb_true (a b : R) : Rltb a b = true <-> a < b.
Proof. unfold Rltb; destruct (Rlt_dec a b); split; intros; try discriminate; tauto. Qed.

Lemma Rltb_false (a b : R) : Rltb a b = false <-> b <= a.
Proof.
  unfold Rltb; destruct (Rlt_dec a b); split; intros; try discriminate;
    try reflexivity; lra.
Qed.

Lemma Reqb_true (a b : R) : Reqb a b = true <-> a = b.
Proof. unfold Reqb; destruct (Req_dec_T a b); split; intros; try discriminate; tauto. Qed.

Lemma Reqb_false (a b : R) : Reqb a b = false <-> a <> b.
Proof.
  unfold Reqb; destruct (Req_dec_T a b); split; intros; try discriminate;
    try reflexivity; tauto.
Qed.

(** Case analysis on every comparison of the goal. *)
Ltac cases_cmp :=
  repeat match goal with
  | |- context [Rgtb ?a ?b] =>
      let E := fresh "E" in
      destruct (Rgtb a b) eqn:E;
      [apply Rgtb_true in E | apply Rgtb_false in E]
  | |- context [Rltb ?a ?b] =>
      let E := fresh "E" in
      destruct (Rltb a b) eqn:E;
      [apply Rltb_true in E | apply Rltb_false in E]
  | |- context [Reqb ?a ?b] =>
      let E := fresh "E" in
      destruct (Reqb a b) eqn:E;
      [apply Reqb_true in E | apply Reqb_false in E]
  end.

(** Absolute values by cases. *)
Ltac abs_lra :=
  unfold Rabs in *; repeat destruct Rcase_abs; lra.

Lemma Rabs_bound (x b : R) : Rabs x <= b <-> - b <= x <= b.
Proof. split; intros; abs_lra. Qed.

(** ** The velocity ramp on one axis *)

Section Ramp.

Variables (desired a e : R).
Let h := a * e.

(** The ramp with the arithmetic of [R] spelled out. *)
Lemma ramp_R (v : R) :
  ramp desired v a e =
  if Rgtb desired v
  then (if Rgtb (v + h) desired then desired else v + h)
  else (if Rltb (v - h) desired then desired else v - h).
Proof. reflexivity. Qed.

Lemma ramp_below (v : R) :
  0 <= h -> v <= desired -> v <= ramp desired v a e <= desired.
Proof. intros Hh Hv. rewrite ramp_R. cases_cmp; lra. Qed.

Lemma ramp_above (v : R) :
  0 <= h -> desired <= v -> desired <= ramp desired v a e <= v.
Proof. intros Hh Hv. rewrite ramp_R. cases_cmp; lra. Qed.

Lemma ramp_step (v : R) :
  0 <= h -> Rabs (ramp desired v a e - v) <= h.
Proof.
  intros Hh. rewrite ramp_R. apply Rabs_bound. cases_cmp; lra.
Qed.

Lemma ramp_snap (v : R) :
  0 <= h -> Rabs (desired - v) <= h -> ramp desired v a e = desired.
Proof.
  intros Hh Hd. apply Rabs_bound in Hd.
  rewrite ramp_R. cases_cmp; lra.
Qed.

Lemma ramp_far (v : R) :
  0 <= h -> h < Rabs (desired - v) ->
  Rabs (desired - ramp desired v a e) = Rabs (desired - v) - h.
Proof.
  intros Hh Hd. rewrite ramp_R. cases_cmp; abs_lra.
Qed.

Lemma ramp_fixpoint : 0 <= h -> ramp desired desired a e = desired.
Proof.
  intros Hh. apply ramp_snap; [assumption|].
  replace (desired - desired) with 0 by ring. rewrite Rabs_R0. assumption.
Qed.

(** [n] steps are enough as soon as [n * h] covers the distance. *)
Lemma ramp_reach (n : nat) (v : R) :
  0 <= h -> Rabs (desired - v) <= INR n * h ->
  Nat.iter n (fun u => ramp desired u a e) v = desired.
Proof.
  intros Hh. revert v. induction n as [|n IH]; intros v Hd.
  - simpl in *. rewrite Rmult_0_l in Hd.
    apply Rabs_bound in Hd. lra.
  - rewrite Nat.iter_succ_r. apply IH.
    destruct (Rle_lt_dec (Rabs (desired - v)) h) as [Hs|Hf].
    + rewrite (ramp_snap v Hh Hs).
      replace (desired - desired) with 0 by ring. rewrite Rabs_R0.
      apply Rmult_le_pos; [apply pos_INR | assumption].
    + rewrite (ramp_far v Hh Hf). rewrite S_INR in Hd. lra.
Qed.

(** As long as [n] full steps do not pass the target from below, each of
    them adds exactly [h]. *)
Lemma ramp_linear (n : nat) (v : R) :
  0 < h -> v + INR n * h <= desired ->
  Nat.iter n (fun u => ramp desired u a e) v = v + INR n * h.
Proof.
  intros Hh. induction n as [|n IH]; intros Hd.
  - simpl. ring.
  - rewrite S_INR in Hd.
    change (Nat.iter (S n) (fun u => ramp desired u a e) v)
      with (ramp desired (Nat.iter n (fun u => ramp desired u a e) v) a e).
    rewrite IH by (pose proof (pos_INR n); nra).
    rewrite ramp_R, S_INR. pose proof (pos_INR n). cases_cmp; nra.
Qed.

End Ramp.

(** A ramp step with target zero is a step of a ramped stop. *)
Lemma ramp_steps_toward_zero (v a e : R) :
  0 <= a * e -> steps_toward_zero (a * e) v (ramp 0 v a e).
Proof.
  intros Hh. unfold steps_toward_zero.
  split; [intros Hv; apply ramp_above; assumption|].
  split; [intros Hv; apply ramp_below; assumption|].
  split; [apply ramp_step; assumption|].
  split.
  - intros Hs. apply ramp_snap; [assumption|].
    replace (0 - v) with (- v) by ring. rewrite Rabs_Ropp. exact Hs.
  - intros Hf.
    assert (Hf' : a * e < Rabs (0 - v))
      by (replace (0 - v) with (- v) by ring; rewrite Rabs_Ropp; exact Hf).
    pose proof (ramp_far 0 a e v Hh Hf') as Hd.
    replace (0 - ramp 0 v a e) with (- ramp 0 v a e) in Hd by ring.
    replace (0 - v) with (- v) in Hd by ring.
    rewrite !Rabs_Ropp in Hd. exact Hd.
Qed.

Lemma Rceil_spec (x : R) : IZR (Rceil x) - 1 < x <= IZR (Rceil x).
Proof.
  unfold Rceil. destruct (archimed (- x)) as [Hu Hl].
  rewrite minus_IZR. simpl. lra.
Qed.

(** An integer count at least [ceil x] is at least [x]. *)
Lemma Rceil_le_INR (x : R) (n : nat) :
  (Z.to_nat (Rceil x) <= n)%nat -> x <= INR n.
Proof.
  intros Hn. destruct (Rceil_spec x) as [_ Hc].
  apply Rle_trans with (IZR (Rceil x)); [assumption|].
  rewrite INR_IZR_INZ. apply IZR_le. lia.
Qed.

(** ** The ramp inside the controller *)

Lemma ramp_calls_frame (n : nat) (now : Time) (s : BaseController R) :
  desired_x_ (ramp_calls n now s) = desired_x_ s /\
  desired_r_ (ramp_calls n now s) = desired_r_ s /\
  max_acceleration_x_ (ramp_calls n now s) = max_acceleration_x_ s /\
  max_acceleration_r_ (ramp_calls n now s) = max_acceleration_r_ s /\
  last_update_ (ramp_calls n now s) = last_update_ s.
Proof.
  induction n as [|n IH]; [repeat split|].
  unfold ramp_calls in *. simpl. exact IH.
Qed.

(** Each axis runs its own ramp: the linear axis never reads the angular
    members, and conversely. *)
Lemma ramp_calls_x (n : nat) (now : Time) (s : BaseController R) :
  last_sent_x_ (ramp_calls n now s) =
  Nat.iter n (fun u => ramp (desired_x_ s) u (max_acceleration_x_ s)
                            (elapsed now s)) (last_sent_x_ s).
Proof.
  induction n as [|n IH]; [reflexivity|].
  destruct (ramp_calls_frame n now s) as (Hx & _ & Ha & _ & Hu).
  unfold ramp_calls in *. simpl. rewrite <- IH, Hx, Ha.
  unfold elapsed. rewrite Hu. reflexivity.
Qed.

Lemma ramp_calls_r (n : nat) (now : Time) (s : BaseController R) :
  last_sent_r_ (ramp_calls n now s) =
  Nat.iter n (fun u => ramp (desired_r_ s) u (max_acceleration_r_ s)
                            (elapsed now s)) (last_sent_r_ s).
Proof.
  induction n as [|n IH]; [reflexivity|].
  destruct (ramp_calls_frame n now s) as (_ & Hr & _ & Ha & Hu).
  unfold ramp_calls in *. simpl. rewrite <- IH, Hr, Ha.
  unfold elapsed. rewrite Hu. reflexivity.
Qed.

Lemma iter_ramp_ramps_to (desired a e v0 : R) :
  0 < a -> 0 < e ->
  ramps_to desired (a * e)
           (fun k => Nat.iter k (fun u => ramp desired u a e) v0).
Proof.
  intros Ha He.
  assert (Hh : 0 < a * e) by (apply Rmult_lt_0_compat; assumption).
  assert (Hh' : 0 <= a * e) by lra.
  split.
  - intros k. simpl.
    set (v := Nat.iter k (fun u => ramp desired u a e) v0).
    repeat split.
    + apply ramp_below; assumption.
    + apply ramp_below; assumption.
    + apply ramp_above; assumption.
    + apply ramp_above; assumption.
    + apply ramp_step; assumption.
    + apply ramp_snap; assumption.
  - intros n Hn. simpl in Hn. apply ramp_reach; [assumption|].
    apply Rceil_le_INR in Hn.
    apply Rmult_le_compat_r with (r := a * e) in Hn; [|assumption].
    unfold Rdiv in Hn. rewrite Rmult_assoc, Rinv_l, Rmult_1_r in Hn by lra.
    exact Hn.
Qed.

(** C1.  Ramp convergence: with a fixed elapsed time [e > 0] and positive
    acceleration limits, repeated calls of the velocity-ramp step move the
    issued linear and angular velocities, each on its own, toward the desired
    value by at most [max_acceleration * e] per call, land exactly on the
    desired value when it is within one step, never pass it, and have reached
    it after [ceil (|desired - issued| / (max_acceleration * e))] calls. *)
Theorem ramp_convergence (s : BaseController R) (now : Time) :
  0 < elapsed now s ->
  0 < max_acceleration_x_ s ->
  0 < max_acceleration_r_ s ->
  ramps_to (desired_x_ s) (max_acceleration_x_ s * elapsed now s)
           (fun k => last_sent_x_ (ramp_calls k now s)) /\
  ramps_to (desired_r_ s) (max_acceleration_r_ s * elapsed now s)
           (fun k => last_sent_r_ (ramp_calls k now s)).
Proof.
  intros He Hx Hr. split.
  - pose proof (iter_ramp_ramps_to (desired_x_ s) _ _ (last_sent_x_ s) Hx He)
      as [Hstep Hreach].
    split.
    + intros k. rewrite !ramp_calls_x. apply Hstep.
    + intros n. rewrite !ramp_calls_x. apply Hreach.
  - pose proof (iter_ramp_ramps_to (desired_r_ s) _ _ (last_sent_r_ s) Hr He)
      as [Hstep Hreach].
    split.
    + intros k. rewrite !ramp_calls_r. apply Hstep.
    + intros n. rewrite !ramp_calls_r. apply Hreach.
Qed.

Lemma ramp_convergence_witness :
  0 < elapsed 100000000%Z accelerating /\
  0 < max_acceleration_x_ accelerating /\
  0 < max_acceleration_r_ accelerating /\
  ramps_to (desired_x_ accelerating)
           (max_acceleration_x_ accelerating * elapsed 100000000%Z accelerating)
           (fun k => last_sent_x_ (ramp_calls k 100000000%Z accelerating)) /\
  ramps_to (desired_r_ accelerating)
           (max_acceleration_r_ accelerating * elapsed 100000000%Z accelerating)
           (fun k => last_sent_r_ (ramp_calls k 100000000%Z accelerating)).
Proof.
  assert (He : 0 < elapsed 100000000%Z accelerating)
    by (unfold elapsed, toSec; simpl; lra).
  assert (Hx : 0 < max_acceleration_x_ accelerating) by (simpl; lra).
  assert (Hr : 0 < max_acceleration_r_ accelerating) by (simpl; lra).
  split; [exact He|]. split; [exact Hx|]. split; [exact Hr|].
  exact (ramp_convergence accelerating 100000000%Z He Hx Hr).
Defined.

(** The scenario of the defaults: 0.5 m/s from rest at 0.75 m/s^2 and ticks
    of 0.1 s is reached with the seventh call, not with the sixth. *)
Example ramp_half_in_seven :
  last_sent_x_ (ramp_calls 6 100000000%Z accelerating) = 45 / 100 /\
  last_sent_x_ (ramp_calls 7 100000000%Z accelerating) = 1 / 2.
Proof.
  rewrite !ramp_calls_x.
  assert (He : elapsed 100000000%Z accelerating = 1 / 10)
    by (unfold elapsed, toSec; simpl; lra).
  rewrite He.
  change (desired_x_ accelerating) with (1 / 2).
  change (max_acceleration_x_ accelerating) with (75 / 100).
  change (last_sent_x_ accelerating) with 0.
  split.
  - rewrite ramp_linear; simpl; lra.
  - apply ramp_reach; simpl.
    + lra.
    + apply Rabs_bound. lra.
Qed.

(** C10.  The ramp step is a fixpoint at the target: with a non-negative
    elapsed time and non-negative acceleration limits, an axis whose issued
    velocity already equals the desired velocity takes the decrementing
    branch, and the clamp puts it back on the desired velocity exactly. *)
Theorem ramp_fixpoint_at_target (s : BaseController R) (now : Time) :
  0 <= elapsed now s ->
  0 <= max_acceleration_x_ s ->
  0 <= max_acceleration_r_ s ->
  (last_sent_x_ s = desired_x_ s ->
     Rgtb (desired_x_ s) (last_sent_x_ s) = false /\
     last_sent_x_ (limit_velocity now s) = desired_x_ s) /\
  (last_sent_r_ s = desired_r_ s ->
     Rgtb (desired_r_ s) (last_sent_r_ s) = false /\
     last_sent_r_ (limit_velocity now s) = desired_r_ s).
Proof.
  intros He Hx Hr. split; intros Heq; (split; [apply Rgtb_false; lra|]).
  - simpl. rewrite Heq. apply ramp_fixpoint.
    apply Rmult_le_pos; assumption.
  - simpl. rewrite Heq. apply ramp_fixpoint.
    apply Rmult_le_pos; assumption.
Qed.

Lemma ramp_fixpoint_at_target_witness :
  0 <= elapsed 10000000%Z creeping /\
  0 <= max_acceleration_x_ creeping /\
  0 <= max_acceleration_r_ creeping /\
  last_sent_x_ creeping = desired_x_ creeping /\
  last_sent_x_ (limit_velocity 10000000%Z creeping) = desired_x_ creeping /\
  last_sent_r_ (limit_velocity 10000000%Z creeping) = desired_r_ creeping.
Proof.
  assert (He : 0 <= elapsed 10000000%Z creeping)
    by (unfold elapsed, toSec; simpl; lra).
  assert (Hx : 0 <= max_acceleration_x_ creeping) by (simpl; lra).
  assert (Hr : 0 <= max_acceleration_r_ creeping) by (simpl; lra).
  split; [exact He|]. split; [exact Hx|]. split; [exact Hr|].
  split; [reflexivity|].
  destruct (ramp_fixpoint_at_target creeping 10000000%Z He Hx Hr) as [Fx Fr].
  split; [apply Fx | apply Fr]; reflexivity.
Defined.

(** ** Ticks and the ramp state *)

(** What a tick of an initialized controller does to the ramp state. *)
Lemma update_issued (now : Time) (dt : Duration) (s : BaseController R) :
  initialized_ s = true ->
  let s0 := stop_on_timeout now s in
  desired_x_ (snd (update now dt s)) = desired_x_ s0 /\
  desired_r_ (snd (update now dt s)) = desired_r_ s0 /\
  last_sent_x_ (snd (update now dt s)) =
    ramp (desired_x_ s0) (last_sent_x_ s) (max_acceleration_x_ s)
         (elapsed now s) /\
  last_sent_r_ (snd (update now dt s)) =
    ramp (desired_r_ s0) (last_sent_r_ s) (max_acceleration_r_ s)
         (elapsed now s).
Proof.
  intros Hi s0. rewrite (update_snd now dt s Hi). cbv zeta. fold s0.
  set (s1 := limit_velocity now s0).
  set (dx := fst (fst (integrate s1))). set (dr := snd (fst (integrate s1))).
  destruct (send_issued dx dr (snd (integrate s1))) as (Hx & Hr & Hdx & Hdr).
  destruct (stop_on_timeout_frame now s) as (F1 & F2 & F3 & F4 & F5).
  fold s0 in F1, F2, F3, F4, F5.
  unfold elapsed. rewrite <- F1, <- F2, <- F3, <- F4, <- F5.
  repeat split.
  - change (desired_x_ (send dx dr (snd (integrate s1))) = desired_x_ s0).
    rewrite Hdx. reflexivity.
  - change (desired_r_ (send dx dr (snd (integrate s1))) = desired_r_ s0).
    rewrite Hdr. reflexivity.
  - change (last_sent_x_ (send dx dr (snd (integrate s1))) =
            last_sent_x_ s1).
    rewrite Hx. reflexivity.
  - change (last_sent_r_ (send dx dr (snd (integrate s1))) =
            last_sent_r_ s1).
    rewrite Hr. reflexivity.
Qed.

(** The ramp is what the control loop runs: over ticks of a fixed period
    with the command still fresh at the last of them, and whatever the wheel
    feedback, the issued velocities after the ticks are those of as many
    calls of the ramp step. *)
Lemma run_periodic_issued (e : Duration) (ws : list (WheelSample R)) :
  forall s : BaseController R,
  initialized_ s = true ->
  (last_update_ s + Z.of_nat (length ws) * e - last_command_ s < timeout_ s)%Z ->
  (0 <= e)%Z ->
  last_sent_x_ (run (periodic e (last_update_ s) ws) s) =
    Nat.iter (length ws)
      (fun u => ramp (desired_x_ s) u (max_acceleration_x_ s) (toSec e))
      (last_sent_x_ s) /\
  last_sent_r_ (run (periodic e (last_update_ s) ws) s) =
    Nat.iter (length ws)
      (fun u => ramp (desired_r_ s) u (max_acceleration_r_ s) (toSec e))
      (last_sent_r_ s).
Proof.
  induction ws as [|w rest IH]; intros s Hi Hfresh He.
  - split; reflexivity.
  - change (length (w :: rest)) with (S (length rest)) in *.
    rewrite Nat2Z.inj_succ in Hfresh.
    set (now := (last_update_ s + e)%Z).
    set (dt := (now - last_update_ s)%Z).
    set (s0 := feedback w s).
    assert (Hi0 : initialized_ s0 = true) by exact Hi.
    destruct (update_frame now dt s0 Hi0)
      as (Fu & _ & _ & Fi & Fc & Ft & _ & _ & Fax & Far).
    destruct (update_issued now dt s0 Hi0) as (Fdx & Fdr & Fx & Fr).
    assert (Hnow : (now - last_command_ s0 < timeout_ s0)%Z).
    { change (now - last_command_ s < timeout_ s)%Z. unfold now.
      assert (0 <= Z.of_nat (length rest) * e)%Z by (apply Z.mul_nonneg_nonneg; lia).
      lia. }
    rewrite (stop_on_timeout_fresh now s0 Hnow) in Fdx, Fdr, Fx, Fr.
    assert (Hel : elapsed now s0 = toSec e).
    { unfold elapsed. change (last_update_ s0) with (last_update_ s).
      unfold now. f_equal. lia. }
    rewrite Hel in Fx, Fr.
    change (run (periodic e (last_update_ s) (w :: rest)) s)
      with (run (periodic e now rest) (snd (update now dt s0))).
    set (s1 := snd (update now dt s0)) in *.
    rewrite <- Fu.
    destruct (IH s1 Fi) as [IHx IHr].
    + rewrite Fu, Fc, Ft.
      change (last_command_ s0) with (last_command_ s).
      change (timeout_ s0) with (timeout_ s). unfold now. lia.
    + exact He.
    + rewrite IHx, IHr, Fdx, Fdr, Fx, Fr, Fax, Far.
      rewrite !Nat.iter_succ_r. split; reflexivity.
Qed.

(** So [n] ticks of the loop issue what [n] calls of the ramp step with
    the period as elapsed time issue. *)
Corollary run_periodic_ramp_calls (e : Duration) (ws : list (WheelSample R))
    (s : BaseController R) :
  initialized_ s = true ->
  (last_update_ s + Z.of_nat (length ws) * e - last_command_ s < timeout_ s)%Z ->
  (0 <= e)%Z ->
  last_sent_x_ (run (periodic e (last_update_ s) ws) s) =
    last_sent_x_ (ramp_calls (length ws) (last_update_ s + e)%Z s) /\
  last_sent_r_ (run (periodic e (last_update_ s) ws) s) =
    last_sent_r_ (ramp_calls (length ws) (last_update_ s + e)%Z s).
Proof.
  intros Hi Hfresh He.
  destruct (run_periodic_issued e ws s Hi Hfresh He) as [Hx Hr].
  rewrite Hx, Hr, ramp_calls_x, ramp_calls_r.
  assert (Hel : elapsed (last_update_ s + e)%Z s = toSec e)
    by (unfold elapsed; f_equal; lia).
  rewrite Hel. split; reflexivity.
Qed.

Corollary run_periodic_reaches (e : Duration) (ws : list (WheelSample R))
    (s : BaseController R) :
  initialized_ s = true ->
  (last_update_ s + Z.of_nat (length ws) * e - last_command_ s < timeout_ s)%Z ->
  (0 < e)%Z ->
  0 < max_acceleration_x_ s ->
  (Z.to_nat (Rceil (Rabs (desired_x_ s - last_sent_x_ s)
                    / (max_acceleration_x_ s * toSec e))) <= length ws)%nat ->
  last_sent_x_ (run (periodic e (last_update_ s) ws) s) = desired_x_ s.
Proof.
  intros Hi Hfresh He Ha Hn.
  destruct (run_periodic_issued e ws s Hi Hfresh) as [Hx _]; [lia|].
  rewrite Hx.
  assert (Hs : 0 < toSec e).
  { unfold toSec. simpl. apply Rdiv_lt_0_compat; [apply IZR_lt; lia | lra]. }
  destruct (iter_ramp_ramps_to (desired_x_ s) _ _ (last_sent_x_ s) Ha Hs)
    as [_ Hreach].
  apply Hreach. exact Hn.
Qed.

(** C5.  Timeout inside the periodic update: when
    [now - last_command_ >= timeout_] the tick sets both desired velocities
    to zero, then runs the ordinary ramp toward zero, and the update returns
    success.  With [max_acceleration * elapsed >= 0] the stop is ramped: each
    issued velocity moves toward zero without passing it, changes by at most
    [max_acceleration * elapsed], lands on zero when it was within that
    step, and is otherwise closer to zero by exactly that step. *)
Theorem update_timeout_ramped_stop
    (now : Time) (dt : Duration) (s : BaseController R) :
  initialized_ s = true ->
  (now - last_command_ s >= timeout_ s)%Z ->
  let s' := snd (update now dt s) in
  fst (update now dt s) = true /\
  desired_x_ s' = 0 /\ desired_r_ s' = 0 /\
  last_sent_x_ s' =
    ramp 0 (last_sent_x_ s) (max_acceleration_x_ s) (elapsed now s) /\
  last_sent_r_ s' =
    ramp 0 (last_sent_r_ s) (max_acceleration_r_ s) (elapsed now s) /\
  (0 <= max_acceleration_x_ s * elapsed now s ->
     Rabs (last_sent_x_ s' - last_sent_x_ s)
       <= max_acceleration_x_ s * elapsed now s) /\
  (0 <= max_acceleration_r_ s * elapsed now s ->
     Rabs (last_sent_r_ s' - last_sent_r_ s)
       <= max_acceleration_r_ s * elapsed now s) /\
  (0 <= max_acceleration_x_ s * elapsed now s ->
     steps_toward_zero (max_acceleration_x_ s * elapsed now s)
                       (last_sent_x_ s) (last_sent_x_ s')) /\
  (0 <= max_acceleration_r_ s * elapsed now s ->
     steps_toward_zero (max_acceleration_r_ s * elapsed now s)
                       (last_sent_r_ s) (last_sent_r_ s')).
Proof.
  intros Hi Hl s'.
  destruct (update_issued now dt s Hi) as (Hdx & Hdr & Hx & Hr).
  rewrite (stop_on_timeout_late now s Hl) in Hdx, Hdr, Hx, Hr.
  change (desired_x_ (set_desired_x_ (lit 0) (set_desired_r_ (lit 0) s)))
    with 0 in Hdx, Hx.
  change (desired_r_ (set_desired_x_ (lit 0) (set_desired_r_ (lit 0) s)))
    with 0 in Hdr, Hr.
  unfold s'. rewrite Hx, Hr.
  split; [apply update_fst; assumption|].
  split; [assumption|]. split; [assumption|].
  split; [reflexivity|]. split; [reflexivity|].
  split; [intros Hh; apply ramp_step; exact Hh|].
  split; [intros Hh; apply ramp_step; exact Hh|].
  split; intros Hh; apply ramp_steps_toward_zero; exact Hh.
Qed.

Lemma update_timeout_ramped_stop_witness :
  initialized_ cruising = true /\
  (300000000 - last_command_ cruising >= timeout_ cruising)%Z /\
  0 <= max_acceleration_x_ cruising * elapsed 300000000%Z cruising /\
  fst (update 300000000%Z 10000000%Z cruising) = true /\
  desired_x_ (snd (update 300000000%Z 10000000%Z cruising)) = 0 /\
  desired_r_ (snd (update 300000000%Z 10000000%Z cruising)) = 0 /\
  steps_toward_zero
    (max_acceleration_x_ cruising * elapsed 300000000%Z cruising)
    (last_sent_x_ cruising)
    (last_sent_x_ (snd (update 300000000%Z 10000000%Z cruising))).
Proof.
  assert (Hi : initialized_ cruising = true) by reflexivity.
  assert (Hl : (300000000 - last_command_ cruising >= timeout_ cruising)%Z)
    by (simpl; lia).
  assert (Hh : 0 <= max_acceleration_x_ cruising * elapsed 300000000%Z cruising)
    by (unfold elapsed, toSec; simpl; lra).
  split; [exact Hi|]. split; [exact Hl|]. split; [exact Hh|].
  destruct (update_timeout_ramped_stop 300000000%Z 10000000%Z cruising Hi Hl)
    as (Hok & Hdx & Hdr & _ & _ & _ & _ & Hsx & _).
  split; [exact Hok|]. split; [exact Hdx|]. split; [exact Hdr|].
  exact (Hsx Hh).
Defined.

(** ** Odometry *)

(** C2, as the code has it.  Pure rotation: when a tick measures a wheel
    travel of [d] on the left wheel and [- d] on the right wheel, the
    position is unchanged and the heading changes by [- 2 d / track_width_]:
    the heading grows when the right wheel runs ahead of the left one. *)
Theorem pure_rotation
    (now : Time) (dt : Duration) (s : BaseController R) (d : R) :
  initialized_ s = true ->
  left_dx s = d ->
  right_dx s = - d ->
  let s' := snd (update now dt s) in
  position_x (odom_ s') = position_x (odom_ s) /\
  position_y (odom_ s') = position_y (odom_ s) /\
  theta_ s' = theta_ s - 2 * d / track_width_ s.
Proof.
  intros Hi Hl Hr.
  destruct (update_odometry now dt s Hi) as (Hx & Hy & Ht & _).
  cbv zeta. rewrite Hx, Hy, Ht, Hl, Hr. simpl.
  repeat split; unfold Rdiv; ring.
Qed.

Lemma pure_rotation_witness :
  position_x (odom_ (snd (update 10000000%Z 10000000%Z spinning_default))) =
    position_x (odom_ spinning_default) /\
  position_y (odom_ (snd (update 10000000%Z 10000000%Z spinning_default))) =
    position_y (odom_ spinning_default) /\
  theta_ (snd (update 10000000%Z 10000000%Z spinning_default)) =
    theta_ spinning_default
    - 2 * (3 / (174978147374 / 10000000000)) / track_width_ spinning_default.
Proof.
  apply (pure_rotation 10000000%Z 10000000%Z spinning_default).
  - reflexivity.
  - unfold left_dx. simpl. lra.
  - unfold right_dx. simpl. lra.
Defined.

(** C2, as the claim has it, at a concrete tick: unit track width, one radian
    per meter, the left wheel one meter ahead and the right wheel one meter
    back ([d = 1]).  The claim asks for a heading of [2]; the tick stores
    [- 2]. *)
Lemma pure_rotation_not_plus :
  initialized_ spinning_unit = true /\
  left_dx spinning_unit = 1 /\ right_dx spinning_unit = - 1 /\
  theta_ (snd (update 10000000%Z 10000000%Z spinning_unit)) = - 2 /\
  theta_ (snd (update 10000000%Z 10000000%Z spinning_unit)) <>
    theta_ spinning_unit + 2 * 1 / track_width_ spinning_unit.
Proof.
  assert (Hi : initialized_ spinning_unit = true) by reflexivity.
  assert (Hl : left_dx spinning_unit = 1) by (unfold left_dx; simpl; lra).
  assert (Hr : right_dx spinning_unit = - 1) by (unfold right_dx; simpl; lra).
  destruct (update_odometry 10000000%Z 10000000%Z spinning_unit Hi)
    as (_ & _ & Ht & _).
  rewrite Ht, Hl, Hr. simpl.
  repeat split; try assumption; try lra.
Qed.

Lemma feedback_frame (w : WheelSample R) (s : BaseController R) :
  initialized_ (feedback w s) = initialized_ s /\
  odom_ (feedback w s) = odom_ s /\
  theta_ (feedback w s) = theta_ s.
Proof. repeat split. Qed.

(** A straight run from any pose: the position advances by [d] per tick
    along the heading, which stays put. *)
Lemma straight_run_pose (d : R) (ticks : list (Time * WheelSample R)) :
  forall s : BaseController R,
  initialized_ s = true ->
  straight_run d ticks s ->
  position_x (odom_ (run ticks s)) =
    position_x (odom_ s) + INR (length ticks) * d * cos (theta_ s) /\
  position_y (odom_ (run ticks s)) =
    position_y (odom_ s) + INR (length ticks) * d * sin (theta_ s) /\
  theta_ (run ticks s) = theta_ s.
Proof.
  induction ticks as [|[now w] rest IH]; intros s Hi Hs.
  - simpl. repeat split; ring.
  - destruct Hs as (Hl & Hr & Hrest).
    destruct (feedback_frame w s) as (Fi & Fo & Ft).
    assert (Hi' : initialized_ (feedback w s) = true) by (rewrite Fi; exact Hi).
    unfold tick in Hrest.
    set (dt := (now - last_update_ s)%Z) in *.
    destruct (update_odometry now dt (feedback w s) Hi') as (Hx & Hy & Ht & _).
    destruct (update_frame now dt (feedback w s) Hi') as (_ & _ & _ & Hi'' & _).
    rewrite ?Hl, ?Hr, ?Fo, ?Ft in Hx, Hy, Ht.
    assert (Ht' : theta_ (snd (update now dt (feedback w s))) = theta_ s).
    { rewrite Ht. simpl. unfold Rdiv. ring. }
    destruct (IH _ Hi'' Hrest) as (IHx & IHy & IHt).
    change (run ((now, w) :: rest) s)
      with (run rest (snd (update now dt (feedback w s)))).
    rewrite IHx, IHy, IHt, Hx, Hy, Ht'.
    change (length ((now, w) :: rest)) with (S (length rest)).
    rewrite S_INR. simpl. repeat split; field.
Qed.

(** C8.  Straight line: for a positive track width and a positive number of
    radians per meter, from the pose [(0, 0, theta0)], after [N] ticks that
    each measured a wheel travel of [d] on both wheels, the pose is
    [x = N d cos theta0], [y = N d sin theta0], with the heading unchanged. *)
Theorem straight_line
    (d theta0 : R) (ticks : list (Time * WheelSample R))
    (s : BaseController R) :
  initialized_ s = true ->
  0 < track_width_ s ->
  0 < radians_per_meter_ s ->
  position_x (odom_ s) = 0 ->
  position_y (odom_ s) = 0 ->
  theta_ s = theta0 ->
  straight_run d ticks s ->
  position_x (odom_ (run ticks s)) = INR (length ticks) * d * cos theta0 /\
  position_y (odom_ (run ticks s)) = INR (length ticks) * d * sin theta0 /\
  theta_ (run ticks s) = theta0.
Proof.
  intros Hi Hw Hm Hx Hy Ht Hs.
  destruct (straight_run_pose d ticks s Hi Hs) as (Rx & Ry & Rt).
  rewrite Rx, Ry, Rt, Hx, Hy, Ht. repeat split; ring.
Qed.

Lemma dx_feedback (w : WheelSample R) (s : BaseController R) :
  left_dx (feedback w s) =
    (leftPosition w - left_last_position_ s) / radians_per_meter_ s /\
  right_dx (feedback w s) =
    (rightPosition w - right_last_position_ s) / radians_per_meter_ s.
Proof. split; reflexivity. Qed.

Lemma tick_frame (now : Time) (w : WheelSample R) (s : BaseController R) :
  initialized_ s = true ->
  initialized_ (snd (tick now w s)) = true /\
  left_last_position_ (snd (tick now w s)) = leftPosition w /\
  right_last_position_ (snd (tick now w s)) = rightPosition w /\
  radians_per_meter_ (snd (tick now w s)) = radians_per_meter_ s /\
  last_update_ (snd (tick now w s)) = now.
Proof.
  intros Hi. unfold tick.
  assert (Hi' : initialized_ (feedback w s) = true) by exact Hi.
  destruct (update_frame now (now - last_update_ s)%Z (feedback w s) Hi')
    as (Hu & Hl & Hr & Hi'' & _ & _ & _ & Hm & _).
  repeat split; assumption.
Qed.

Lemma straight_line_witness :
  0 < track_width_ heading_one /\
  0 < radians_per_meter_ heading_one /\
  position_x (odom_ (run two_straight_ticks heading_one)) =
    INR (length two_straight_ticks) * 1 * cos 1 /\
  position_y (odom_ (run two_straight_ticks heading_one)) =
    INR (length two_straight_ticks) * 1 * sin 1 /\
  theta_ (run two_straight_ticks heading_one) = 1.
Proof.
  assert (Hw : 0 < track_width_ heading_one) by (simpl; lra).
  assert (Hm : 0 < radians_per_meter_ heading_one) by (simpl; lra).
  split; [exact Hw|]. split; [exact Hm|].
  apply (straight_line 1 1 two_straight_ticks heading_one eq_refl Hw Hm
           eq_refl eq_refl eq_refl).
  assert (Hi : initialized_ heading_one = true) by reflexivity.
  unfold two_straight_ticks, straight_run.
  set (w1 := mkWheelSample 1 1 0 0). set (w2 := mkWheelSample 2 2 0 0).
  destruct (dx_feedback w1 heading_one) as [L1 R1].
  destruct (dx_feedback w2 (snd (tick 100000000%Z w1 heading_one))) as [L2 R2].
  destruct (tick_frame 100000000%Z w1 heading_one Hi)
    as (_ & Fl & Fr & Fm & _).
  rewrite L1, R1, L2, R2, Fl, Fr, Fm. simpl.
  repeat split; lra.
Defined.

(** C9.  After a tick whose odometry inputs are numbers (wheel positions,
    retained positions and heading, with a positive track width and a
    positive number of radians per meter), the accumulated heading is a
    number [theta] and the published orientation is the unit quaternion of a
    rotation by [theta] about the vertical axis: [x] and [y] stay at the
    zero they start from (no operation of the controller assigns them),
    [z = sin (theta / 2)], [w = cos (theta / 2)], and [z^2 + w^2 = 1]. *)
Theorem published_rotation_unit
    (now : Time) (dt : Duration) (s : BaseController nan_or) :
  initialized_ s = true ->
  orientation_x (odom_ s) = Some 0 ->
  orientation_y (odom_ s) = Some 0 ->
  odometry_inputs_are_numbers s ->
  let s' := snd (update now dt s) in
  exists theta z w : R,
    theta_ s' = Some theta /\
    published_rotation s' = (Some 0, Some 0, Some z, Some w) /\
    z = sin (theta / 2) /\ w = cos (theta / 2) /\
    z * z + w * w = 1.
Proof.
  intros Hi Hx Hy (pl & pr & ll & lr & m & t & th &
                   Hpl & Hpr & Hll & Hlr & Hm & Hm0 & Ht & Ht0 & Hth).
  destruct (update_odometry now dt s Hi)
    as (_ & _ & Htheta & Hox & Hoy & Hoz & How & _).
  cbv zeta.
  unfold left_dx, right_dx in Htheta, Hoz, How.
  rewrite Hpl, Hpr, Hll, Hlr, Hm, Ht, Hth in Htheta, Hoz, How.
  cbn [fadd fsub fdiv fsin fcos lit Double_nan lift1 lift2]
    in Htheta, Hoz, How.
  exists (th + ((pr - lr) / m - (pl - ll) / m) / t).
  exists (sin ((th + ((pr - lr) / m - (pl - ll) / m) / t) / 2)).
  exists (cos ((th + ((pr - lr) / m - (pl - ll) / m) / t) / 2)).
  split; [exact Htheta|].
  split; [unfold published_rotation; rewrite Hox, Hoy, Hoz, How, Hx, Hy;
          reflexivity|].
  split; [reflexivity|]. split; [reflexivity|].
  apply sin2_cos2.
Qed.

Lemma published_rotation_unit_witness :
  initialized_ turning_nan_controller = true /\
  odometry_inputs_are_numbers turning_nan_controller /\
  exists theta z w : R,
    theta_ (snd (update 10000000%Z 10000000%Z turning_nan_controller))
      = Some theta /\
    published_rotation (snd (update 10000000%Z 10000000%Z turning_nan_controller))
      = (Some 0, Some 0, Some z, Some w) /\
    z = sin (theta / 2) /\ w = cos (theta / 2) /\
    z * z + w * w = 1.
Proof.
  assert (Hn : odometry_inputs_are_numbers turning_nan_controller).
  { exists 3, (- 3), 0, 0, (174978147374 / 10000000000), (33665 / 100000), 0.
    repeat split; lra. }
  split; [reflexivity|]. split; [exact Hn|].
  apply (published_rotation_unit 10000000%Z 10000000%Z turning_nan_controller
           eq_refl eq_refl eq_refl Hn).
Defined.

(** ** The wheel command mixer *)

(** C6.  Mixer inverse: [setCommand], called as the tick calls it, writes
    [left = (v - w / 2 * track_width_) * radians_per_meter_] and
    [right = (v + w / 2 * track_width_) * radians_per_meter_] for the issued
    twist [(v, w)]; when the wheels then report exactly these velocities, the
    twist the odometry reconstructs from them is [(v, w)] again, for a
    positive track width and a positive number of radians per meter. *)
Theorem mixer_inverse (s : BaseController R) (pl pr : R) :
  0 < track_width_ s ->
  0 < radians_per_meter_ s ->
  let v := last_sent_x_ s in
  let w := last_sent_r_ s in
  let s1 := setCommand (v - (w / 2 * track_width_ s))
                       (v + (w / 2 * track_width_ s)) s in
  let l := commanded (left_ s1) in
  let r := commanded (right_ s1) in
  let s2 := feedback (mkWheelSample pl pr l r) s1 in
  l = (v - w / 2 * track_width_ s) * radians_per_meter_ s /\
  r = (v + w / 2 * track_width_ s) * radians_per_meter_ s /\
  fst (fst (integrate s2)) = v /\
  snd (fst (integrate s2)) = w.
Proof.
  intros Hw Hm. cbv zeta.
  split; [reflexivity|]. split; [reflexivity|].
  split.
  - change (((last_sent_x_ s - last_sent_r_ s / 2 * track_width_ s)
               * radians_per_meter_ s / radians_per_meter_ s
             + (last_sent_x_ s + last_sent_r_ s / 2 * track_width_ s)
               * radians_per_meter_ s / radians_per_meter_ s) / 2
            = last_sent_x_ s).
    field. lra.
  - change (((last_sent_x_ s + last_sent_r_ s / 2 * track_width_ s)
               * radians_per_meter_ s / radians_per_meter_ s
             - (last_sent_x_ s - last_sent_r_ s / 2 * track_width_ s)
               * radians_per_meter_ s / radians_per_meter_ s) / track_width_ s
            = last_sent_r_ s).
    field. split; lra.
Qed.

Lemma mixer_inverse_witness :
  0 < track_width_ cruising /\
  0 < radians_per_meter_ cruising /\
  let s1 := setCommand
      (last_sent_x_ cruising - (last_sent_r_ cruising / 2 * track_width_ cruising))
      (last_sent_x_ cruising + (last_sent_r_ cruising / 2 * track_width_ cruising))
      cruising in
  let s2 := feedback (mkWheelSample 0 0 (commanded (left_ s1))
                                    (commanded (right_ s1))) s1 in
  commanded (left_ s1) =
    (last_sent_x_ cruising - last_sent_r_ cruising / 2 * track_width_ cruising)
    * radians_per_meter_ cruising /\
  commanded (right_ s1) =
    (last_sent_x_ cruising + last_sent_r_ cruising / 2 * track_width_ cruising)
    * radians_per_meter_ cruising /\
  fst (fst (integrate s2)) = last_sent_x_ cruising /\
  snd (fst (integrate s2)) = last_sent_r_ cruising.
Proof.
  assert (Hw : 0 < track_width_ cruising) by (simpl; lra).
  assert (Hm : 0 < radians_per_meter_ cruising) by (simpl; lra).
  split; [exact Hw|]. split; [exact Hm|].
  exact (mixer_inverse cruising 0 0 Hw Hm).
Defined.

(** The tick writes through [setCommand] with exactly these arguments. *)
Lemma send_moving (dx dr : R) (s : BaseController R) :
  moving dx dr s = true ->
  send dx dr s =
  setCommand (last_sent_x_ s - (last_sent_r_ s / 2 * track_width_ s))
             (last_sent_x_ s + (last_sent_r_ s / 2 * track_width_ s)) s.
Proof. intros Hm. unfold send. rewrite Hm. reflexivity. Qed.

(** ** The gate of the actuator write *)

Section Writes.

Context {F : Type} `{Double F}.
Local Open Scope dbl_scope.
Implicit Types (s : BaseController F) (now : Time) (dt : Duration).

Lemma report_reads now (dx dr : F) s :
  moving (twist_linear_x (odom_ (report now dx dr s)))
         (twist_angular_z (odom_ (report now dx dr s)))
         (report now dx dr s) = moving dx dr s /\
  left_ (report now dx dr s) = left_ s /\
  right_ (report now dx dr s) = right_ s /\
  last_sent_x_ (report now dx dr s) = last_sent_x_ s /\
  last_sent_r_ (report now dx dr s) = last_sent_r_ s /\
  moving_threshold_ (report now dx dr s) = moving_threshold_ s.
Proof. repeat split. Qed.

Lemma send_writes (dx dr : F) s :
  left_ (send dx dr s) =
    (if moving dx dr s
     then setVelocityCommand
            ((last_sent_x_ s - last_sent_r_ s / lit 2 * track_width_ s)
             * radians_per_meter_ s) (lit 0) (left_ s)
     else left_ s) /\
  right_ (send dx dr s) =
    (if moving dx dr s
     then setVelocityCommand
            ((last_sent_x_ s + last_sent_r_ s / lit 2 * track_width_ s)
             * radians_per_meter_ s) (lit 0) (right_ s)
     else right_ s) /\
  moving dx dr (send dx dr s) = moving dx dr s /\
  moving_threshold_ (send dx dr s) = moving_threshold_ s.
Proof.
  unfold send. destruct (moving dx dr s) eqn:E; repeat split; exact E.
Qed.

Lemma integrate_reads s :
  left_ (snd (integrate s)) = left_ s /\
  right_ (snd (integrate s)) = right_ s /\
  last_sent_x_ (snd (integrate s)) = last_sent_x_ s /\
  last_sent_r_ (snd (integrate s)) = last_sent_r_ s /\
  track_width_ (snd (integrate s)) = track_width_ s /\
  radians_per_meter_ (snd (integrate s)) = radians_per_meter_ s /\
  moving_threshold_ (snd (integrate s)) = moving_threshold_ s /\
  (forall dx dr : F, moving dx dr (snd (integrate s)) = moving dx dr s).
Proof. repeat split. Qed.

Lemma ramp_stages_threshold now s :
  moving_threshold_ (limit_velocity now (stop_on_timeout now s)) =
  moving_threshold_ s.
Proof.
  unfold stop_on_timeout.
  destruct (now - last_command_ s >=? timeout_ s)%Z; reflexivity.
Qed.

(** What a tick does to the two joints: one new setpoint on each when the
    condition of "Actually set command" holds of the issued and measured
    twists of this tick, and nothing otherwise. *)
Lemma update_writes now dt s :
  initialized_ s = true ->
  let s' := snd (update now dt s) in
  let go := moving (twist_linear_x (odom_ s')) (twist_angular_z (odom_ s')) s' in
  left_ s' =
    (if go
     then setVelocityCommand
            ((last_sent_x_ s' - last_sent_r_ s' / lit 2 * track_width_ s)
             * radians_per_meter_ s) (lit 0) (left_ s)
     else left_ s) /\
  right_ s' =
    (if go
     then setVelocityCommand
            ((last_sent_x_ s' + last_sent_r_ s' / lit 2 * track_width_ s)
             * radians_per_meter_ s) (lit 0) (right_ s)
     else right_ s) /\
  moving_threshold_ s' = moving_threshold_ s.
Proof.
  intros Hi. rewrite (update_snd now dt s Hi). cbv zeta.
  destruct (ramp_stages_frame now s) as (_ & _ & Hl & Hr & _ & _ & Hm & Hw).
  pose proof (ramp_stages_threshold now s) as Hth.
  set (s1 := limit_velocity now (stop_on_timeout now s)) in *.
  set (dx := fst (fst (integrate s1))). set (dr := snd (fst (integrate s1))).
  destruct (integrate_reads s1) as (Il & Ir & Ix & Irr & Iw & Im & Ith & Imv).
  set (s3 := snd (integrate s1)) in *.
  destruct (send_writes dx dr s3) as (Sl & Sr & Smv & Sth).
  destruct (send_issued dx dr s3) as (Sx & Srr & _).
  destruct (report_reads now dx dr (send dx dr s3))
    as (Rmv & Rl & Rr & Rx & Rrr & Rth).
  rewrite Rmv, Rl, Rr, Rx, Rrr, Rth, Smv, Sl, Sr, Sx, Srr, Sth.
  rewrite Il, Ir, Iw, Im, Ith, Hl, Hr, Hm, Hw, Hth.
  repeat split.
Qed.

End Writes.

Lemma moving_issued (dx dr : R) (s : BaseController R) :
  last_sent_x_ s <> 0 \/ last_sent_r_ s <> 0 -> moving dx dr s = true.
Proof.
  intros Hn. unfold moving. simpl.
  destruct (Reqb (last_sent_x_ s) 0) eqn:Ex;
    destruct (Reqb (last_sent_r_ s) 0) eqn:Er; try reflexivity.
  apply Reqb_true in Ex. apply Reqb_true in Er. tauto.
Qed.

Lemma cons_neq {A : Type} (x : A) (l : list A) : x :: l <> l.
Proof.
  intros E. apply (f_equal (@length A)) in E. simpl in E. lia.
Qed.

Lemma issued_nonzero_writes
    (now : Time) (dt : Duration) (s : BaseController R) :
  initialized_ s = true ->
  let s' := snd (update now dt s) in
  last_sent_x_ s' <> 0 \/ last_sent_r_ s' <> 0 ->
  commands (left_ s') =
    ((last_sent_x_ s' - last_sent_r_ s' / 2 * track_width_ s)
     * radians_per_meter_ s, 0) :: commands (left_ s) /\
  commands (right_ s') =
    ((last_sent_x_ s' + last_sent_r_ s' / 2 * track_width_ s)
     * radians_per_meter_ s, 0) :: commands (right_ s).
Proof.
  intros Hi s' Hn.
  destruct (update_writes now dt s Hi) as (Hl & Hr & _). fold s' in Hl, Hr.
  rewrite (moving_issued _ _ s' Hn) in Hl, Hr.
  rewrite Hl, Hr. split; reflexivity.
Qed.

(** C7, as the code has it.  On every tick the wheel setpoints are written
    as soon as an axis of the issued twist differs from zero, whatever the
    measured twist and the moving threshold; a tick that writes nothing has
    both issued axes exactly zero. *)
Theorem write_when_issued_nonzero
    (now : Time) (dt : Duration) (s : BaseController R) :
  initialized_ s = true ->
  let s' := snd (update now dt s) in
  (last_sent_x_ s' <> 0 \/ last_sent_r_ s' <> 0 ->
     commands (left_ s') =
       ((last_sent_x_ s' - last_sent_r_ s' / 2 * track_width_ s)
        * radians_per_meter_ s, 0) :: commands (left_ s) /\
     commands (right_ s') =
       ((last_sent_x_ s' + last_sent_r_ s' / 2 * track_width_ s)
        * radians_per_meter_ s, 0) :: commands (right_ s)) /\
  (commands (left_ s') = commands (left_ s) \/
   commands (right_ s') = commands (right_ s) ->
     last_sent_x_ s' = 0 /\ last_sent_r_ s' = 0).
Proof.
  intros Hi s'.
  pose proof (issued_nonzero_writes now dt s Hi) as Hw. fold s' in Hw.
  cbv zeta in Hw.
  split; [exact Hw|].
  intros Hskip.
  destruct (Req_dec (last_sent_x_ s') 0) as [Ex|Ex];
    destruct (Req_dec (last_sent_r_ s') 0) as [Er|Er];
    try (split; assumption);
    (destruct Hw as [Wl Wr]; [tauto|];
     destruct Hskip as [Hs|Hs]; [rewrite Wl in Hs | rewrite Wr in Hs];
     exfalso; exact (cons_neq _ _ Hs)).
Qed.

(** A tick of [creeping], 10 ms after the command it holds: the issued
    twist stays where it is and the measured twist is zero. *)
Lemma creeping_tick :
  last_sent_x_ (snd (update 10000000%Z 10000000%Z creeping)) = 5 / 100000 /\
  last_sent_r_ (snd (update 10000000%Z 10000000%Z creeping)) = 0 /\
  twist_linear_x (odom_ (snd (update 10000000%Z 10000000%Z creeping))) = 0 /\
  twist_angular_z (odom_ (snd (update 10000000%Z 10000000%Z creeping))) = 0 /\
  moving_threshold_ (snd (update 10000000%Z 10000000%Z creeping)) = 1 / 10000.
Proof.
  assert (Hi : initialized_ creeping = true) by reflexivity.
  destruct (update_issued 10000000%Z 10000000%Z creeping Hi)
    as (_ & _ & Hx & Hr).
  destruct (update_odometry 10000000%Z 10000000%Z creeping Hi)
    as (_ & _ & _ & _ & _ & _ & _ & Htx & Htz).
  destruct (update_writes 10000000%Z 10000000%Z creeping Hi) as (_ & _ & Hth).
  rewrite stop_on_timeout_fresh in Hx, Hr by (simpl; lia).
  rewrite Hx, Hr, Htx, Htz, Hth.
  repeat split.
  - apply ramp_fixpoint. unfold elapsed, toSec. simpl. lra.
  - apply ramp_fixpoint. unfold elapsed, toSec. simpl. lra.
  - unfold left_vel, right_vel. simpl. lra.
  - unfold left_vel, right_vel. simpl. lra.
Qed.

Lemma write_when_issued_nonzero_witness :
  initialized_ creeping = true /\
  commands (left_ (snd (update 10000000%Z 10000000%Z creeping))) =
    ((last_sent_x_ (snd (update 10000000%Z 10000000%Z creeping))
      - last_sent_r_ (snd (update 10000000%Z 10000000%Z creeping)) / 2
        * track_width_ creeping)
     * radians_per_meter_ creeping, 0) :: commands (left_ creeping).
Proof.
  split; [reflexivity|].
  apply (write_when_issued_nonzero 10000000%Z 10000000%Z creeping eq_refl).
  left. destruct creeping_tick as (Hx & _). rewrite Hx. lra.
Defined.

(** C7, as the claim has it, at a concrete tick: all four axes are within the
    configured moving threshold of zero (issued 0.00005 and 0, measured 0 and
    0, threshold 0.0001), and yet the tick writes a setpoint. *)
Lemma write_inside_threshold :
  initialized_ creeping = true /\
  Rabs (last_sent_x_ (snd (update 10000000%Z 10000000%Z creeping)))
    <= moving_threshold_ (snd (update 10000000%Z 10000000%Z creeping)) /\
  Rabs (last_sent_r_ (snd (update 10000000%Z 10000000%Z creeping)))
    <= moving_threshold_ (snd (update 10000000%Z 10000000%Z creeping)) /\
  Rabs (twist_linear_x (odom_ (snd (update 10000000%Z 10000000%Z creeping))))
    <= moving_threshold_ (snd (update 10000000%Z 10000000%Z creeping)) /\
  Rabs (twist_angular_z (odom_ (snd (update 10000000%Z 10000000%Z creeping))))
    <= moving_threshold_ (snd (update 10000000%Z 10000000%Z creeping)) /\
  commands (left_ (snd (update 10000000%Z 10000000%Z creeping)))
    <> commands (left_ creeping) /\
  commands (right_ (snd (update 10000000%Z 10000000%Z creeping)))
    <> commands (right_ creeping).
Proof.
  destruct creeping_tick as (Hx & Hr & Htx & Htz & Hth).
  assert (Hi : initialized_ creeping = true) by reflexivity.
  assert (Hn : last_sent_x_ (snd (update 10000000%Z 10000000%Z creeping)) <> 0
            \/ last_sent_r_ (snd (update 10000000%Z 10000000%Z creeping)) <> 0)
    by (left; rewrite Hx; lra).
  destruct (issued_nonzero_writes 10000000%Z 10000000%Z creeping Hi Hn)
    as [Wl Wr].
  rewrite Wl, Wr, Hx, Hr, Htx, Htz, Hth.
  repeat split; try (apply Rabs_bound; lra); apply cons_neq.
Qed.

(** ** The command lifecycle *)

Lemma preempt_iff (force : bool) (s : BaseController R) :
  preempt force s = true <->
  (last_update_ s - last_command_ s >= timeout_ s)%Z \/
  (last_sent_x_ s = 0 /\ last_sent_r_ s = 0) \/
  force = true.
Proof.
  unfold preempt. simpl.
  destruct (Z.geb_spec (last_update_ s - last_command_ s) (timeout_ s))
    as [Hge|Hlt].
  - split; [intros _; left; lia | reflexivity].
  - destruct (Reqb (last_sent_x_ s) 0) eqn:Ex;
      [apply Reqb_true in Ex | apply Reqb_false in Ex];
      (destruct (Reqb (last_sent_r_ s) 0) eqn:Er;
       [apply Reqb_true in Er | apply Reqb_false in Er]);
      destruct force; simpl; split; intros Hp;
      try reflexivity; try discriminate; try tauto;
      destruct Hp as [Hp|[[Hx Hr]|Hp]];
      try lia; try contradiction; try discriminate.
Qed.

(** C3, as the code has it.  [preempt] takes no time and reads no clock: it
    returns true exactly when (a) [last_update_ - last_command_ >= timeout_],
    where [last_update_] is the time of the latest tick, or (b) both issued
    velocities are exactly zero, or (c) [force] is set.  So, for a command
    received at [t0] and none after it, a nonzero issued velocity and no
    [force], it returns true once a tick has run at a time
    [>= t0 + timeout_], and false as long as the latest tick is earlier. *)
Theorem preempt_spec (force : bool) (s : BaseController R) (t0 : Time) :
  (preempt force s = true <->
   (last_update_ s - last_command_ s >= timeout_ s)%Z \/
   (last_sent_x_ s = 0 /\ last_sent_r_ s = 0) \/
   force = true) /\
  (last_command_ s = t0 ->
   ~ (last_sent_x_ s = 0 /\ last_sent_r_ s = 0) ->
   ((last_update_ s >= t0 + timeout_ s)%Z -> preempt false s = true) /\
   ((last_update_ s < t0 + timeout_ s)%Z -> preempt false s = false)).
Proof.
  split; [apply preempt_iff|].
  intros Hc Hn. split; intros Ht.
  - apply preempt_iff. left. lia.
  - destruct (preempt false s) eqn:Hp; [|reflexivity].
    apply preempt_iff in Hp.
    destruct Hp as [Hp|[Hp|Hp]]; [lia|contradiction|discriminate].
Qed.

(** The state [driving]: the command is from time 0, the latest tick from
    200 ms, the timeout 250 ms, and 0.15 m/s are issued. *)
Lemma driving_state :
  last_command_ driving = 0%Z /\
  last_update_ driving = 200000000%Z /\
  timeout_ driving = 250000000%Z /\
  last_sent_x_ driving = 15 / 100 /\
  last_sent_r_ driving = 0.
Proof.
  unfold driving, tick.
  set (s := feedback (mkWheelSample 0 0 0 0) (command 0%Z 1 0 default_controller)).
  set (dt := Z.sub 200000000 (last_update_ (command 0%Z 1 0 default_controller))).
  assert (Hi : initialized_ s = true) by reflexivity.
  destruct (update_frame 200000000%Z dt s Hi) as (Hu & _ & _ & _ & Hc & Ht & _).
  destruct (update_issued 200000000%Z dt s Hi) as (_ & _ & Hx & Hr).
  rewrite stop_on_timeout_fresh in Hx, Hr by (simpl; lia).
  rewrite Hu, Hc, Ht, Hx, Hr.
  repeat split.
  - unfold elapsed, toSec. simpl. rewrite ramp_R. cases_cmp; lra.
  - unfold elapsed, toSec. simpl. rewrite ramp_R. cases_cmp; lra.
Qed.

Lemma preempt_spec_witness :
  (200000000 < 0 + timeout_ driving)%Z /\ preempt false driving = false.
Proof.
  destruct driving_state as (Hc & Hu & Ht & Hx & Hr).
  assert (Hlt : (last_update_ driving < 0 + timeout_ driving)%Z)
    by (rewrite Hu, Ht; lia).
  split; [rewrite Ht; lia|].
  apply (preempt_spec false driving 0%Z); [exact Hc | rewrite Hx; lra | exact Hlt].
Defined.

(** C3, as the claim has it, at a concrete evaluation: a command of 1 m/s
    at [t0 = 0], a timeout of 250 ms, a tick at 200 ms, and [preempt]
    evaluated at [t = 260 ms] with [force] unset.  The issued velocity is
    not zero and [t - t0 >= timeout_], so the claim asks for true; the
    latest tick is from before the timeout and [preempt] returns false. *)
Lemma preempt_between_ticks :
  last_command_ driving = 0%Z /\
  (260000000 - last_command_ driving >= timeout_ driving)%Z /\
  last_sent_x_ driving <> 0 /\
  preempt false driving = false.
Proof.
  destruct driving_state as (Hc & Hu & Ht & Hx & Hr).
  split; [exact Hc|]. split; [rewrite Hc, Ht; lia|].
  split; [rewrite Hx; lra|].
  destruct (preempt false driving) eqn:Hp; [|reflexivity].
  apply preempt_iff in Hp. rewrite Hu, Hc, Ht, Hx in Hp.
  destruct Hp as [Hp|[[Hp _]|Hp]]; [lia|lra|discriminate].
Qed.

(** * Properties over reals with NaN *)

Lemma lift2_nan_l (f : R -> R -> R) (b : nan_or) : lift2 f NaN b = NaN.
Proof. reflexivity. Qed.

Lemma lift2_nan_r (f : R -> R -> R) (a : nan_or) : lift2 f a NaN = NaN.
Proof. destruct a; reflexivity. Qed.

(** The odometry of a tick reads the wheel positions only. *)
Lemma tick_odometry (now : Time) (w : WheelSample nan_or)
    (s : BaseController nan_or) :
  initialized_ s = true ->
  let ldx := lift2 Rdiv (lift2 Rminus (leftPosition w) (left_last_position_ s))
                        (radians_per_meter_ s) in
  let rdx := lift2 Rdiv (lift2 Rminus (rightPosition w) (right_last_position_ s))
                        (radians_per_meter_ s) in
  let d := lift2 Rdiv (lift2 Rplus ldx rdx) (Some 2) in
  let th := lift2 Rdiv (lift2 Rminus rdx ldx) (track_width_ s) in
  position_x (odom_ (snd (tick now w s))) =
    lift2 Rplus (position_x (odom_ s)) (lift2 Rmult d (lift1 cos (theta_ s))) /\
  position_y (odom_ (snd (tick now w s))) =
    lift2 Rplus (position_y (odom_ s)) (lift2 Rmult d (lift1 sin (theta_ s))) /\
  theta_ (snd (tick now w s)) = lift2 Rplus (theta_ s) th.
Proof.
  intros Hi. unfold tick.
  assert (Hi' : initialized_ (feedback w s) = true) by exact Hi.
  destruct (update_odometry now (now - last_update_ s)%Z (feedback w s) Hi')
    as (Hx & Hy & Ht & _).
  rewrite Hx, Hy, Ht. repeat split.
Qed.

Lemma tick_pose (now : Time) (w : WheelSample nan_or)
    (s : BaseController nan_or) :
  initialized_ s = true ->
  let ldx := lift2 Rdiv (lift2 Rminus (leftPosition w) (left_last_position_ s))
                        (radians_per_meter_ s) in
  let rdx := lift2 Rdiv (lift2 Rminus (rightPosition w) (right_last_position_ s))
                        (radians_per_meter_ s) in
  let d := lift2 Rdiv (lift2 Rplus ldx rdx) (Some 2) in
  let th := lift2 Rdiv (lift2 Rminus rdx ldx) (track_width_ s) in
  pose (snd (tick now w s)) =
  (lift2 Rplus (position_x (odom_ s)) (lift2 Rmult d (lift1 cos (theta_ s))),
   lift2 Rplus (position_y (odom_ s)) (lift2 Rmult d (lift1 sin (theta_ s))),
   lift2 Rplus (theta_ s) th).
Proof.
  intros Hi. destruct (tick_odometry now w s Hi) as (Hx & Hy & Ht).
  unfold pose. cbv zeta in *. rewrite Hx, Hy, Ht. reflexivity.
Qed.

(** C4, as the code has it.  The tick has no guard on the feedback: it
    reports success whatever the sample; a NaN wheel position makes the
    persisted [x], [y] and heading NaN; a NaN wheel velocity stays out of the
    pose, which is computed from the positions alone. *)
Theorem nan_feedback_unguarded (now : Time) (w : WheelSample nan_or)
    (s : BaseController nan_or) :
  initialized_ s = true ->
  fst (tick now w s) = true /\
  (leftPosition w = NaN \/ rightPosition w = NaN ->
     pose (snd (tick now w s)) = (NaN, NaN, NaN)) /\
  (forall lv rv : nan_or,
     pose (snd (tick now (mkWheelSample (leftPosition w) (rightPosition w)
                                        lv rv) s))
     = pose (snd (tick now w s))).
Proof.
  intros Hi. split; [|split].
  - unfold tick. apply update_fst. exact Hi.
  - intros Hn. rewrite (tick_pose now w s Hi). cbv zeta.
    destruct Hn as [Hn|Hn]; rewrite Hn;
      rewrite ?lift2_nan_l, ?lift2_nan_r; reflexivity.
  - intros lv rv. rewrite !(tick_pose now _ s Hi). reflexivity.
Qed.

Lemma nan_feedback_unguarded_witness :
  initialized_ default_nan_controller = true /\
  fst (tick 10000000%Z nan_left_position default_nan_controller) = true /\
  pose (snd (tick 10000000%Z nan_left_position default_nan_controller))
    = (NaN, NaN, NaN).
Proof.
  split; [reflexivity|].
  destruct (nan_feedback_unguarded 10000000%Z nan_left_position
              default_nan_controller eq_refl) as (Hok & Hp & _).
  split; [exact Hok|].
  apply Hp. left. reflexivity.
Defined.

(** C4, as the claim has it, at a concrete tick: the left wheel position is
    a NaN; the tick stores a NaN in [x], [y] and the heading, and returns
    success, not a failure. *)
Lemma nan_position_reaches_pose :
  is_nan (leftPosition nan_left_position) = true /\
  initialized_ default_nan_controller = true /\
  is_nan (position_x (odom_
    (snd (tick 10000000%Z nan_left_position default_nan_controller)))) = true /\
  is_nan (position_y (odom_
    (snd (tick 10000000%Z nan_left_position default_nan_controller)))) = true /\
  is_nan (theta_
    (snd (tick 10000000%Z nan_left_position default_nan_controller))) = true /\
  fst (tick 10000000%Z nan_left_position default_nan_controller) = true.
Proof.
  assert (Hi : initialized_ default_nan_controller = true) by reflexivity.
  destruct (tick_odometry 10000000%Z nan_left_position default_nan_controller Hi)
    as (Hx & Hy & Ht).
  change (leftPosition nan_left_position) with NaN in Hx, Hy, Ht.
  rewrite ?lift2_nan_l, ?lift2_nan_r in Hx, Hy, Ht.
  rewrite Hx, Hy, Ht.
  repeat split.
Qed.

(** * Further properties of the control loop *)

(** ** The ramp *)

(** X1.  The ramp step is a clamp: with [max_acceleration * elapsed >= 0] the
    new issued velocity is the desired velocity clamped into the interval of
    half-width [max_acceleration * elapsed] around the old issued velocity. *)
Theorem ramp_is_clamp (desired v a e : R) :
  0 <= a * e ->
  ramp desired v a e = Rmax (v - a * e) (Rmin (v + a * e) desired).
Proof.
  intros Hh. rewrite ramp_R.
  unfold Rmax, Rmin.
  destruct (Rle_dec (v + a * e) desired);
    repeat (match goal with |- context [Rle_dec ?x ?y] =>
              destruct (Rle_dec x y) end);
    cases_cmp; lra.
Qed.

Lemma ramp_is_clamp_witness :
  0 <= 75 / 100 * (1 / 10) /\
  ramp 2 1 (75 / 100) (1 / 10) =
    Rmax (1 - 75 / 100 * (1 / 10)) (Rmin (1 + 75 / 100 * (1 / 10)) 2).
Proof.
  assert (Hh : 0 <= 75 / 100 * (1 / 10)) by lra.
  split; [exact Hh|]. exact (ramp_is_clamp 2 1 (75 / 100) (1 / 10) Hh).
Defined.

(** X2.  Forward and reverse are ramped alike: with
    [max_acceleration * elapsed >= 0], negating both the desired and the
    issued velocity negates the result, although the source treats the case
    [desired > issued] and its complement in different branches. *)
Theorem ramp_odd (desired v a e : R) :
  0 <= a * e ->
  ramp (- desired) (- v) a e = - ramp desired v a e.
Proof.
  intros Hh. rewrite !ramp_R. cases_cmp; lra.
Qed.

Lemma ramp_odd_witness :
  0 <= 75 / 100 * (1 / 10) /\
  ramp (- 2) (- 1) (75 / 100) (1 / 10) = - ramp 2 1 (75 / 100) (1 / 10).
Proof.
  assert (Hh : 0 <= 75 / 100 * (1 / 10)) by lra.
  split; [exact Hh|]. exact (ramp_odd 2 1 (75 / 100) (1 / 10) Hh).
Defined.

(** X3.  The acceleration limit holds on every tick: whatever the command,
    fresh or timed out, a tick of an initialized controller changes each
    issued velocity by at most [max_acceleration * elapsed], when that
    product is not negative; in particular a tick with no elapsed time
    leaves the issued twist as it is. *)
Theorem update_acceleration_bound
    (now : Time) (dt : Duration) (s : BaseController R) :
  initialized_ s = true ->
  let s' := snd (update now dt s) in
  (0 <= max_acceleration_x_ s * elapsed now s ->
     Rabs (last_sent_x_ s' - last_sent_x_ s)
       <= max_acceleration_x_ s * elapsed now s) /\
  (0 <= max_acceleration_r_ s * elapsed now s ->
     Rabs (last_sent_r_ s' - last_sent_r_ s)
       <= max_acceleration_r_ s * elapsed now s) /\
  (now = last_update_ s ->
     last_sent_x_ s' = last_sent_x_ s /\ last_sent_r_ s' = last_sent_r_ s).
Proof.
  intros Hi s'.
  destruct (update_issued now dt s Hi) as (_ & _ & Hx & Hr).
  fold s' in Hx, Hr. rewrite Hx, Hr.
  split; [intros Hh; apply ramp_step; exact Hh|].
  split; [intros Hh; apply ramp_step; exact Hh|].
  intros Hn.
  assert (He : elapsed now s = 0).
  { unfold elapsed, toSec. rewrite Hn, Z.sub_diag. simpl. lra. }
  rewrite He.
  assert (Hz : forall d v a, ramp d v a 0 = v).
  { intros d v a. rewrite ramp_R. cases_cmp; lra. }
  rewrite !Hz. split; reflexivity.
Qed.

Lemma update_acceleration_bound_witness :
  initialized_ accelerating = true /\
  (0 <= max_acceleration_x_ accelerating * elapsed 100000000%Z accelerating ->
   Rabs (last_sent_x_ (snd (update 100000000%Z 100000000%Z accelerating))
         - last_sent_x_ accelerating)
     <= max_acceleration_x_ accelerating * elapsed 100000000%Z accelerating).
Proof.
  split; [reflexivity|].
  apply (update_acceleration_bound 100000000%Z 100000000%Z accelerating eq_refl).
Defined.

Lemma ramp_backwards (desired v a e : R) :
  a * e < 0 ->
  ramp desired v a e = (if Rgtb desired v then v + a * e else v - a * e) /\
  Rabs (desired - ramp desired v a e) = Rabs (desired - v) - a * e.
Proof.
  intros Hh. rewrite ramp_R. cases_cmp; (split; [lra|abs_lra]).
Qed.

(** X4.  Time running backwards: a tick stamped before the previous one
    ([now < last_update_]) with positive acceleration limits moves each
    issued velocity away from its target, by [max_acceleration * |elapsed|];
    nothing clamps it. *)
Theorem update_backwards
    (now : Time) (dt : Duration) (s : BaseController R) :
  initialized_ s = true ->
  (now < last_update_ s)%Z ->
  0 < max_acceleration_x_ s ->
  0 < max_acceleration_r_ s ->
  let s' := snd (update now dt s) in
  Rabs (desired_x_ s' - last_sent_x_ s') =
    Rabs (desired_x_ s' - last_sent_x_ s)
    + max_acceleration_x_ s * Rabs (elapsed now s) /\
  Rabs (desired_r_ s' - last_sent_r_ s') =
    Rabs (desired_r_ s' - last_sent_r_ s)
    + max_acceleration_r_ s * Rabs (elapsed now s).
Proof.
  intros Hi Hb Hx Hr s'.
  destruct (update_issued now dt s Hi) as (Hdx & Hdr & Hlx & Hlr).
  fold s' in Hdx, Hdr, Hlx, Hlr.
  assert (He : elapsed now s < 0).
  { unfold elapsed, toSec. simpl.
    assert (IZR (now - last_update_ s) < 0) by (apply IZR_lt; lia). lra. }
  rewrite (Rabs_left _ He).
  rewrite Hlx, Hlr, Hdx, Hdr.
  split.
  - destruct (ramp_backwards (desired_x_ (stop_on_timeout now s))
                (last_sent_x_ s) (max_acceleration_x_ s) (elapsed now s))
      as [_ Hd]; [nra|]. rewrite Hd. ring.
  - destruct (ramp_backwards (desired_r_ (stop_on_timeout now s))
                (last_sent_r_ s) (max_acceleration_r_ s) (elapsed now s))
      as [_ Hd]; [nra|]. rewrite Hd. ring.
Qed.

Lemma update_backwards_witness :
  initialized_ rewound = true /\
  (100000000 < last_update_ rewound)%Z /\
  Rabs (desired_x_ (snd (update 100000000%Z 0%Z rewound))
        - last_sent_x_ (snd (update 100000000%Z 0%Z rewound))) =
    Rabs (desired_x_ (snd (update 100000000%Z 0%Z rewound))
          - last_sent_x_ rewound)
    + max_acceleration_x_ rewound * Rabs (elapsed 100000000%Z rewound).
Proof.
  assert (Hb : (100000000 < last_update_ rewound)%Z) by (simpl; lia).
  assert (Hx : 0 < max_acceleration_x_ rewound) by (simpl; lra).
  assert (Hr : 0 < max_acceleration_r_ rewound) by (simpl; lra).
  split; [reflexivity|]. split; [exact Hb|].
  apply (update_backwards 100000000%Z 0%Z rewound eq_refl Hb Hx Hr).
Defined.

(** ** Command, start and timeout *)

Lemma start_iff (t : Time) (s : BaseController R) :
  start t s = true <->
  initialized_ s = true /\ (t - last_command_ s < timeout_ s)%Z.
Proof.
  unfold start. destruct (initialized_ s); simpl.
  - destruct (Z.geb_spec (t - last_command_ s) (timeout_ s)); split;
      intros Hs; try discriminate; try (split; [reflexivity|lia]);
      try reflexivity.
    destruct Hs as [_ Hs]. lia.
  - split; [discriminate|]. intros [Hs _]. discriminate.
Qed.

(** X5.  A start requested at [t'] after a command received at [t] succeeds
    exactly when the controller is initialized and [t' - t < timeout_]; an
    uninitialized controller drops the command and refuses to start. *)
Theorem start_after_command
    (t t' : Time) (linear_x angular_z : R) (s : BaseController R) :
  (start t' (command t linear_x angular_z s) = true <->
   initialized_ s = true /\ (t' - t < timeout_ s)%Z) /\
  (initialized_ s = false ->
   command t linear_x angular_z s = s /\ start t' s = false).
Proof.
  split.
  - rewrite start_iff. unfold command.
    destruct (initialized_ s) eqn:Hi; simpl.
    + rewrite Hi. tauto.
    + rewrite Hi. split; intros [Hf _]; discriminate.
  - intros Hi. unfold command, start. rewrite Hi. split; reflexivity.
Qed.

(** X6.  [start] and [update] apply the same staleness test: when a start
    at [now] would succeed, the tick at [now] keeps the desired twist; when
    it would fail on an initialized controller, the tick replaces the
    desired twist by zero. *)
Theorem start_update_agree
    (now : Time) (dt : Duration) (s : BaseController R) :
  initialized_ s = true ->
  let s' := snd (update now dt s) in
  (start now s = true ->
     desired_x_ s' = desired_x_ s /\ desired_r_ s' = desired_r_ s) /\
  (start now s = false -> desired_x_ s' = 0 /\ desired_r_ s' = 0).
Proof.
  intros Hi s'.
  destruct (update_issued now dt s Hi) as (Hdx & Hdr & _).
  fold s' in Hdx, Hdr. rewrite Hdx, Hdr.
  split; intros Hs.
  - apply start_iff in Hs. destruct Hs as [_ Hs].
    rewrite (stop_on_timeout_fresh now s Hs). split; reflexivity.
  - assert (Hl : (now - last_command_ s >= timeout_ s)%Z).
    { destruct (Z_lt_ge_dec (now - last_command_ s) (timeout_ s)) as [Hlt|Hge];
        [|exact Hge].
      assert (Ht : start now s = true) by (apply start_iff; split; assumption).
      rewrite Ht in Hs. discriminate. }
    rewrite (stop_on_timeout_late now s Hl). split; reflexivity.
Qed.

Lemma start_update_agree_witness :
  initialized_ cruising = true /\
  start 300000000%Z cruising = false /\
  desired_x_ (snd (update 300000000%Z 0%Z cruising)) = 0 /\
  desired_r_ (snd (update 300000000%Z 0%Z cruising)) = 0.
Proof.
  split; [reflexivity|]. split; [reflexivity|].
  apply (start_update_agree 300000000%Z 0%Z cruising eq_refl). reflexivity.
Defined.

(** X8.  A command acts through the ramp only: the tick at [now] that
    follows a command [(x, r)] received at [t], with [now - t < timeout_],
    issues one ramp step from the old issued twist toward [(x, r)], and the
    command itself changed neither the issued twist nor the pose. *)
Theorem command_then_update
    (t now : Time) (dt : Duration) (x r : R) (s : BaseController R) :
  initialized_ s = true ->
  (now - t < timeout_ s)%Z ->
  let c := command t x r s in
  let s' := snd (update now dt c) in
  last_sent_x_ c = last_sent_x_ s /\ last_sent_r_ c = last_sent_r_ s /\
  odom_ c = odom_ s /\ theta_ c = theta_ s /\
  last_sent_x_ s' =
    ramp x (last_sent_x_ s) (max_acceleration_x_ s) (elapsed now s) /\
  last_sent_r_ s' =
    ramp r (last_sent_r_ s) (max_acceleration_r_ s) (elapsed now s).
Proof.
  intros Hi Hf c s'.
  assert (Hc : c = set_desired_r_ r (set_desired_x_ x (set_last_command_ t s))).
  { unfold c, command. rewrite Hi. reflexivity. }
  assert (Hic : initialized_ c = true) by (rewrite Hc; exact Hi).
  destruct (update_issued now dt c Hic) as (_ & _ & Hx & Hr).
  fold s' in Hx, Hr.
  rewrite stop_on_timeout_fresh in Hx, Hr by (rewrite Hc; exact Hf).
  rewrite Hx, Hr, Hc. repeat split.
Qed.

Lemma command_then_update_witness :
  initialized_ default_controller = true /\
  (100000000 - 0 < timeout_ default_controller)%Z /\
  last_sent_x_ (snd (update 100000000%Z 0%Z
                       (command 0%Z (1 / 2) 1 default_controller))) =
    ramp (1 / 2) (last_sent_x_ default_controller)
         (max_acceleration_x_ default_controller)
         (elapsed 100000000%Z default_controller).
Proof.
  assert (Hf : (100000000 - 0 < timeout_ default_controller)%Z)
    by (simpl; lia).
  split; [reflexivity|]. split; [exact Hf|].
  apply (command_then_update 0%Z 100000000%Z 0%Z (1 / 2) 1
           default_controller eq_refl Hf).
Defined.

(** Ticks of a fixed period that all find the command timed out: the
    desired twist is zero from the first of them on and the issued twist
    ramps toward zero. *)
Lemma run_periodic_stale (e : Duration) (ws : list (WheelSample R)) :
  forall s : BaseController R,
  initialized_ s = true ->
  (last_update_ s + e - last_command_ s >= timeout_ s)%Z ->
  (0 <= e)%Z ->
  last_sent_x_ (run (periodic e (last_update_ s) ws) s) =
    Nat.iter (length ws)
      (fun u => ramp 0 u (max_acceleration_x_ s) (toSec e)) (last_sent_x_ s) /\
  last_sent_r_ (run (periodic e (last_update_ s) ws) s) =
    Nat.iter (length ws)
      (fun u => ramp 0 u (max_acceleration_r_ s) (toSec e)) (last_sent_r_ s) /\
  (ws <> [] ->
     desired_x_ (run (periodic e (last_update_ s) ws) s) = 0 /\
     desired_r_ (run (periodic e (last_update_ s) ws) s) = 0 /\
     (last_update_ (run (periodic e (last_update_ s) ws) s)
      - last_command_ (run (periodic e (last_update_ s) ws) s)
      >= timeout_ (run (periodic e (last_update_ s) ws) s))%Z).
Proof.
  induction ws as [|w rest IH]; intros s Hi Hstale He.
  - split; [reflexivity|]. split; [reflexivity|]. intros Hn. contradiction.
  - set (now := (last_update_ s + e)%Z).
    set (dt := (now - last_update_ s)%Z).
    set (s0 := feedback w s).
    assert (Hi0 : initialized_ s0 = true) by exact Hi.
    destruct (update_frame now dt s0 Hi0)
      as (Fu & _ & _ & Fi & Fc & Ft & _ & _ & Fax & Far).
    destruct (update_issued now dt s0 Hi0) as (Fdx & Fdr & Fx & Fr).
    assert (Hnow : (now - last_command_ s0 >= timeout_ s0)%Z) by exact Hstale.
    rewrite (stop_on_timeout_late now s0 Hnow) in Fdx, Fdr, Fx, Fr.
    change (desired_x_ (set_desired_x_ (lit 0) (set_desired_r_ (lit 0) s0)))
      with 0 in Fdx, Fx.
    change (desired_r_ (set_desired_x_ (lit 0) (set_desired_r_ (lit 0) s0)))
      with 0 in Fdr, Fr.
    assert (Hel : elapsed now s0 = toSec e).
    { unfold elapsed. change (last_update_ s0) with (last_update_ s).
      unfold now. f_equal. lia. }
    rewrite Hel in Fx, Fr.
    change (run (periodic e (last_update_ s) (w :: rest)) s)
      with (run (periodic e now rest) (snd (update now dt s0))).
    set (s1 := snd (update now dt s0)) in *.
    rewrite <- Fu.
    assert (Hstale1 : (last_update_ s1 + e - last_command_ s1 >= timeout_ s1)%Z).
    { rewrite Fu, Fc, Ft.
      change (last_command_ s0) with (last_command_ s).
      change (timeout_ s0) with (timeout_ s).
      unfold now. change (last_command_ s0) with (last_command_ s) in Hnow.
      change (timeout_ s0) with (timeout_ s) in Hnow. unfold now in Hnow. lia. }
    destruct (IH s1 Fi Hstale1 He) as (IHx & IHr & IHd).
    change (length (w :: rest)) with (S (length rest)).
    rewrite !Nat.iter_succ_r.
    rewrite IHx, IHr, Fx, Fr, Fax, Far.
    split; [reflexivity|]. split; [reflexivity|].
    intros _. destruct rest as [|w' rest'].
    + change (run (periodic e (last_update_ s1) []) s1) with s1.
      rewrite Fdx, Fdr, Fu, Fc, Ft. repeat split. exact Hnow.
    + apply IHd. discriminate.
Qed.

(** X7.  A stale command ends in a stop: over ticks of a fixed period that
    all fall at or after the timeout, with no new command, the desired twist
    is zero, the issued twist is zero as soon as the number of ticks times
    [max_acceleration * period] covers the issued velocity on each axis, and
    [preempt] then answers true whatever [force]. *)
Theorem stale_command_stops (e : Duration) (ws : list (WheelSample R))
    (s : BaseController R) (force : bool) :
  initialized_ s = true ->
  (last_update_ s + e - last_command_ s >= timeout_ s)%Z ->
  (0 < e)%Z ->
  0 < max_acceleration_x_ s ->
  0 < max_acceleration_r_ s ->
  ws <> [] ->
  Rabs (last_sent_x_ s)
    <= INR (length ws) * (max_acceleration_x_ s * toSec e) ->
  Rabs (last_sent_r_ s)
    <= INR (length ws) * (max_acceleration_r_ s * toSec e) ->
  let s' := run (periodic e (last_update_ s) ws) s in
  desired_x_ s' = 0 /\ desired_r_ s' = 0 /\
  last_sent_x_ s' = 0 /\ last_sent_r_ s' = 0 /\
  preempt force s' = true.
Proof.
  intros Hi Hstale He Hax Har Hne Hx Hr s'.
  destruct (run_periodic_stale e ws s Hi Hstale) as (Rx & Rr & Rd); [lia|].
  destruct (Rd Hne) as (Dx & Dr & Dt).
  fold s' in Rx, Rr, Dx, Dr, Dt.
  assert (Hs : 0 < toSec e).
  { unfold toSec. simpl. apply Rdiv_lt_0_compat; [apply IZR_lt; lia | lra]. }
  assert (Zx : last_sent_x_ s' = 0).
  { rewrite Rx. apply ramp_reach.
    - apply Rlt_le, Rmult_lt_0_compat; assumption.
    - replace (0 - last_sent_x_ s) with (- last_sent_x_ s) by ring.
      rewrite Rabs_Ropp. exact Hx. }
  assert (Zr : last_sent_r_ s' = 0).
  { rewrite Rr. apply ramp_reach.
    - apply Rlt_le, Rmult_lt_0_compat; assumption.
    - replace (0 - last_sent_r_ s) with (- last_sent_r_ s) by ring.
      rewrite Rabs_Ropp. exact Hr. }
  repeat split; try assumption.
  apply preempt_iff. left. exact Dt.
Qed.

Lemma stale_command_stops_witness :
  initialized_ cruising = true /\
  (last_update_ cruising + 300000000 - last_command_ cruising
   >= timeout_ cruising)%Z /\
  last_sent_x_ (run (periodic 300000000%Z (last_update_ cruising)
                              two_rest_samples) cruising) = 0 /\
  last_sent_r_ (run (periodic 300000000%Z (last_update_ cruising)
                              two_rest_samples) cruising) = 0 /\
  preempt false (run (periodic 300000000%Z (last_update_ cruising)
                               two_rest_samples) cruising) = true.
Proof.
  assert (Hstale : (last_update_ cruising + 300000000 - last_command_ cruising
                    >= timeout_ cruising)%Z) by (simpl; lia).
  split; [reflexivity|]. split; [exact Hstale|].
  assert (He : (0 < 300000000)%Z) by lia.
  assert (Hax : 0 < max_acceleration_x_ cruising) by (simpl; lra).
  assert (Har : 0 < max_acceleration_r_ cruising) by (simpl; lra).
  assert (Hne : two_rest_samples <> []) by discriminate.
  assert (Hx : Rabs (last_sent_x_ cruising)
               <= INR (length two_rest_samples)
                  * (max_acceleration_x_ cruising * toSec 300000000%Z)).
  { unfold toSec. simpl. apply Rabs_bound. lra. }
  assert (Hr : Rabs (last_sent_r_ cruising)
               <= INR (length two_rest_samples)
                  * (max_acceleration_r_ cruising * toSec 300000000%Z)).
  { unfold toSec. simpl. apply Rabs_bound. lra. }
  apply (stale_command_stops 300000000%Z two_rest_samples cruising false
           eq_refl Hstale He Hax Har Hne Hx Hr).
Defined.

(** ** Dead reckoning *)







(** X11.  Each tick moves the position by the mean wheel travel: the
    squared distance between the positions before and after a tick is the
    square of [(left_dx + right_dx) / 2]. *)
Theorem step_length (now : Time) (dt : Duration) (s : BaseController R) :
  initialized_ s = true ->
  let s' := snd (update now dt s) in
  let d := (left_dx s + right_dx s) / 2 in
  (position_x (odom_ s') - position_x (odom_ s))
  * (position_x (odom_ s') - position_x (odom_ s))
  + (position_y (odom_ s') - position_y (odom_ s))
    * (position_y (odom_ s') - position_y (odom_ s))
  = d * d.
Proof.
  intros Hi.
  destruct (update_odometry now dt s Hi) as (Hx & Hy & _).
  cbv zeta. rewrite Hx, Hy.
  cbn [fadd fmul fdiv lit fcos fsin Double_R].
  pose proof (sin2_cos2 (theta_ s)) as Hsc. unfold Rsqr in Hsc.
  revert Hsc.
  generalize (sin (theta_ s)) (cos (theta_ s)) ((left_dx s + right_dx s) / 2)
             (position_x (odom_ s)) (position_y (odom_ s)).
  intros n c d x y Hsc.
  transitivity (d * d * (n * n + c * c)); [ring|].
  rewrite Hsc. ring.
Qed.

Lemma step_length_witness :
  initialized_ spinning_default = true /\
  (position_x (odom_ (snd (update 10000000%Z 0%Z spinning_default)))
   - position_x (odom_ spinning_default))
  * (position_x (odom_ (snd (update 10000000%Z 0%Z spinning_default)))
     - position_x (odom_ spinning_default))
  + (position_y (odom_ (snd (update 10000000%Z 0%Z spinning_default)))
     - position_y (odom_ spinning_default))
    * (position_y (odom_ (snd (update 10000000%Z 0%Z spinning_default)))
       - position_y (odom_ spinning_default))
  = (left_dx spinning_default + right_dx spinning_default) / 2
    * ((left_dx spinning_default + right_dx spinning_default) / 2).
Proof.
  split; [reflexivity|].
  apply (step_length 10000000%Z 0%Z spinning_default eq_refl).
Defined.

(** ** The actuator write, and what the tick never reads *)




Section Unread.

Context {F : Type} `{Double F}.
Local Open Scope dbl_scope.
Implicit Types (s : BaseController F) (now : Time) (dt : Duration).
Variables (vx vr thr : F).

Lemma stop_on_timeout_limits now s :
  stop_on_timeout now (with_limits vx vr thr s) =
  with_limits vx vr thr (stop_on_timeout now s).
Proof.
  unfold stop_on_timeout.
  change (last_command_ (with_limits vx vr thr s)) with (last_command_ s).
  change (timeout_ (with_limits vx vr thr s)) with (timeout_ s).
  destruct (now - last_command_ s >=? timeout_ s)%Z; reflexivity.
Qed.

Lemma limit_velocity_limits now s :
  limit_velocity now (with_limits vx vr thr s) =
  with_limits vx vr thr (limit_velocity now s).
Proof. reflexivity. Qed.

Lemma integrate_limits s :
  fst (fst (integrate (with_limits vx vr thr s))) = fst (fst (integrate s)) /\
  snd (fst (integrate (with_limits vx vr thr s))) = snd (fst (integrate s)) /\
  snd (integrate (with_limits vx vr thr s)) =
    with_limits vx vr thr (snd (integrate s)).
Proof. repeat split. Qed.

Lemma send_limits (dx dr : F) s :
  send dx dr (with_limits vx vr thr s) =
  with_limits vx vr thr (send dx dr s).
Proof.
  unfold send.
  change (moving dx dr (with_limits vx vr thr s)) with (moving dx dr s).
  destruct (moving dx dr s); reflexivity.
Qed.

Lemma report_limits now (dx dr : F) s :
  report now dx dr (with_limits vx vr thr s) =
  with_limits vx vr thr (report now dx dr s).
Proof. reflexivity. Qed.

(** X13.  The tick reads neither the velocity limits nor the moving
    threshold: giving [max_velocity_x_], [max_velocity_r_] and
    [moving_threshold_] any other values changes nothing in the result of
    [update] beyond these three members themselves; no issued velocity is
    ever clamped to a maximum velocity. *)
Theorem update_ignores_limits now dt s :
  update now dt (with_limits vx vr thr s) =
  (fst (update now dt s), with_limits vx vr thr (snd (update now dt s))).
Proof.
  destruct (initialized_ s) eqn:Hi.
  - assert (Hi' : initialized_ (with_limits vx vr thr s) = true) by exact Hi.
    apply injective_projections.
    + rewrite (update_fst now dt _ Hi').
      change (true = fst (update now dt s)).
      rewrite (update_fst now dt s Hi). reflexivity.
    + rewrite (update_snd now dt _ Hi').
      change (snd (fst (update now dt s),
                   with_limits vx vr thr (snd (update now dt s))))
        with (with_limits vx vr thr (snd (update now dt s))).
      rewrite (update_snd now dt s Hi).
      cbv zeta.
      rewrite stop_on_timeout_limits, limit_velocity_limits.
      destruct (integrate_limits
                  (limit_velocity now (stop_on_timeout now s)))
        as (Ex & Er & Es).
      rewrite Ex, Er, Es, send_limits, report_limits. reflexivity.
  - assert (Hi' : initialized_ (with_limits vx vr thr s) = false) by exact Hi.
    rewrite (update_uninitialized now dt _ Hi').
    rewrite (update_uninitialized now dt s Hi). reflexivity.
Qed.

End Unread.

(** * The plugin shell *)

Section ShellProperties.

Context {F : Type} `{Double F}.
Implicit Types (p : Shell.Plugin F) (nh : Shell.NodeHandle F)
         (manager : option (Shell.ControllerManager (F := F))).
Variable fromSec : F -> Duration.

Lemma init_cases (now : Time) nh manager p :
  (exists m l r,
     manager = Some m /\
     m "base_l_wheel_joint"%string = Some l /\
     m "base_r_wheel_joint"%string = Some r /\
     fst (Shell.init fromSec now nh manager p) = true /\
     initialized_ (Shell.core (snd (Shell.init fromSec now nh manager p))) = true /\
     Shell.left_null (snd (Shell.init fromSec now nh manager p)) = false /\
     Shell.right_null (snd (Shell.init fromSec now nh manager p)) = false /\
     (Shell.publish_tf_ (snd (Shell.init fromSec now nh manager p)) = true ->
      Shell.broadcaster_null (snd (Shell.init fromSec now nh manager p)) = false))
  \/
  ((manager = None \/
    exists m, manager = Some m /\
      (m "base_l_wheel_joint"%string = None \/
       m "base_r_wheel_joint"%string = None)) /\
   fst (Shell.init fromSec now nh manager p) = false /\
   initialized_ (Shell.core (snd (Shell.init fromSec now nh manager p))) = false).
Proof.
  unfold Shell.init. destruct manager as [m|].
  - destruct (m "base_l_wheel_joint"%string) as [l|] eqn:El;
      destruct (m "base_r_wheel_joint"%string) as [r|] eqn:Er.
    + left. exists m, l, r. cbn [fst snd Shell.core Shell.left_null
        Shell.right_null Shell.publish_tf_ Shell.broadcaster_null initialized_].
      repeat (split; [first [reflexivity | assumption]|]).
      intros Hp. rewrite Hp. reflexivity.
    + right. split; [right; exists m; split; [reflexivity|right; exact Er]|].
      split; reflexivity.
    + right. split; [right; exists m; split; [reflexivity|left; exact El]|].
      split; reflexivity.
    + right. split; [right; exists m; split; [reflexivity|left; exact El]|].
      split; reflexivity.
  - right. split; [left; reflexivity|]. split; reflexivity.
Qed.

(** X14.  [init] succeeds exactly when it is given a manager that has both
    wheel joints, whatever the parameter server holds (no parameter value is
    checked, a zero track width included), and the [initialized_] flag it
    leaves is its result. *)
Theorem init_succeeds_iff (now : Time) nh manager p :
  (fst (Shell.init fromSec now nh manager p) = true <->
   exists m, manager = Some m /\
     m "base_l_wheel_joint"%string <> None /\
     m "base_r_wheel_joint"%string <> None) /\
  initialized_ (Shell.core (snd (Shell.init fromSec now nh manager p))) =
    fst (Shell.init fromSec now nh manager p).
Proof.
  destruct (init_cases now nh manager p)
    as [(m & l & r & Hm & Hl & Hr & Hok & Hi & _)
       | ([Hm | (m & Hm & Hj)] & Hok & Hi)].
  - rewrite Hok, Hi. split; [|reflexivity].
    split; [|reflexivity]. intros _. exists m.
    rewrite Hl, Hr. repeat split; try assumption; discriminate.
  - rewrite Hok, Hi. split; [|reflexivity].
    split; [discriminate|]. intros (m & Hm' & _). congruence.
  - rewrite Hok, Hi. split; [|reflexivity].
    split; [discriminate|]. intros (m' & Hm' & Hl & Hr).
    assert (m' = m) by congruence. subst m'.
    destruct Hj as [Hj|Hj]; contradiction.
Qed.

(** X15.  A controller whose [init] failed is inert: [update] returns false
    and changes nothing (no setpoint is written, no pose is integrated), a
    command is dropped, and [start] refuses. *)
Theorem failed_init_is_inert (now : Time) nh manager p :
  fst (Shell.init fromSec now nh manager p) = false ->
  let p' := snd (Shell.init fromSec now nh manager p) in
  forall (t : Time) (dt : Duration) (x r : F),
    Shell.update_object t dt p' = Some (false, p') /\
    update t dt (Shell.core p') = (false, Shell.core p') /\
    command t x r (Shell.core p') = Shell.core p' /\
    start t (Shell.core p') = false.
Proof.
  intros Hf p' t dt x r.
  assert (Hi : initialized_ (Shell.core p') = false).
  { destruct (init_cases now nh manager p)
      as [(_ & _ & _ & _ & _ & _ & Hok & _) | (_ & _ & Hi)];
      [rewrite Hok in Hf; discriminate | exact Hi]. }
  unfold Shell.update_object, command, start.
  rewrite (update_uninitialized t dt _ Hi), Hi. repeat split.
Qed.

Lemma command_initialized (t : Time) (x r : F) (c : BaseController F) :
  initialized_ (command t x r c) = initialized_ c.
Proof.
  unfold command. destruct (initialized_ c) eqn:Hi; cbn [negb].
  - exact Hi.
  - exact Hi.
Qed.

Lemma call_ready (c : Shell.Call F) p :
  ready p -> exists p', Shell.call c p = Some p' /\ ready p'.
Proof.
  intros [Hj Hb]. destruct c as [t x r | now dt | time | w].
  - eexists. split; [reflexivity|]. split; [|exact Hb].
    cbn [Shell.set_core Shell.core Shell.left_null Shell.right_null].
    intros Hi. apply Hj. rewrite command_initialized in Hi. exact Hi.
  - unfold Shell.call, Shell.update_object.
    destruct (initialized_ (Shell.core p)) eqn:Hi; cbn [negb].
    + destruct (Hj eq_refl) as [Hl Hr]. rewrite Hl, Hr. cbn [orb option_map snd].
      eexists. split; [reflexivity|]. split; [|exact Hb].
      intros _. split; assumption.
    + cbn [option_map snd]. eexists. split; [reflexivity|].
      split; [|exact Hb]. intros Hi'. rewrite Hi in Hi'. discriminate.
  - unfold Shell.call, Shell.publish.
    destruct (Shell.publish_tf_ p) eqn:Hp.
    + rewrite (Hb eq_refl). cbn [option_map snd].
      eexists. split; [reflexivity|]. split; [exact Hj | intros _; reflexivity].
    + cbn [option_map snd]. eexists. split; [reflexivity|].
      split; [exact Hj|]. cbn [Shell.publish_tf_]. intros Hp'. discriminate.
  - unfold Shell.call.
    destruct (Shell.left_null p || Shell.right_null p).
    + eexists. split; [reflexivity|]. split; assumption.
    + eexists. split; [reflexivity|]. split; [|exact Hb]. exact Hj.
Qed.

Lemma calls_ready (cs : list (Shell.Call F)) :
  forall p, ready p -> exists p', Shell.calls cs p = Some p' /\ ready p'.
Proof.
  induction cs as [|c rest IH]; intros p Hr.
  - exists p. split; [reflexivity|exact Hr].
  - destruct (call_ready c p Hr) as (p1 & Hc & Hr1).
    cbn [Shell.calls]. rewrite Hc. apply IH. exact Hr1.
Qed.

(** X17.  No NULL pointer is dereferenced after a successful [init]: every
    sequence of commands, feedback refreshes, updates and publishes on the
    object runs to its end, and the object stays in that safe condition. *)
Theorem no_null_dereference (now : Time) nh manager p
    (cs : list (Shell.Call F)) :
  fst (Shell.init fromSec now nh manager p) = true ->
  exists p', Shell.calls cs (snd (Shell.init fromSec now nh manager p)) = Some p'
             /\ ready p'.
Proof.
  intros Hok. apply calls_ready.
  destruct (init_cases now nh manager p)
    as [(_ & _ & _ & _ & _ & _ & _ & Hi & Hl & Hr & Hb) | (_ & Hf & _)];
    [|rewrite Hf in Hok; discriminate].
  split; [intros _; split; assumption | exact Hb].
Qed.

End ShellProperties.

Lemma failed_init_is_inert_witness :
  fst (Shell.init quarter_second 0%Z no_params None blank) = false /\
  Shell.update_object 5%Z 1%Z
    (snd (Shell.init quarter_second 0%Z no_params None blank))
  = Some (false, snd (Shell.init quarter_second 0%Z no_params None blank)).
Proof.
  split; [reflexivity|].
  apply (failed_init_is_inert quarter_second 0%Z no_params None blank eq_refl
           5%Z 1%Z 0 0).
Defined.

Lemma no_null_dereference_witness :
  fst (Shell.init quarter_second 0%Z no_params (Some two_wheels) blank) = true /\
  exists p',
    Shell.calls
      [ Shell.Feedback (mkWheelSample 3 6 0 0);
        Shell.Command 5000000%Z 1 0;
        Shell.Update 10000000%Z 10000000%Z;
        Shell.Publish 10000000%Z ]
      (snd (Shell.init quarter_second 0%Z no_params (Some two_wheels) blank))
    = Some p' /\ ready p'.
Proof.
  assert (Hok : fst (Shell.init quarter_second 0%Z no_params (Some two_wheels)
                       blank) = true) by reflexivity.
  split; [exact Hok|].
  exact (no_null_dereference quarter_second 0%Z no_params (Some two_wheels)
           blank _ Hok).
Defined.



(** X18.  Publishing after a tick: [publish] returns true, leaves the
    controller untouched, stamps and emits one odometry message holding the
    stored record, and, when transforms are enabled, one transform from the
    odometry frame to the base frame whose origin is [(x, y, 0)] and whose
    rotation is [(0, 0, sin (theta / 2), cos (theta / 2))] for the pose the
    tick stored; with transforms disabled it sends none. *)
Theorem publish_after_tick
    (now time : Time) (dt : Duration) (p : Shell.Plugin R) :
  initialized_ (Shell.core p) = true ->
  orientation_x (odom_ (Shell.core p)) = 0 ->
  orientation_y (odom_ (Shell.core p)) = 0 ->
  (Shell.publish_tf_ p = true -> Shell.broadcaster_null p = false) ->
  let c := snd (update now dt (Shell.core p)) in
  exists p',
    Shell.publish time (Shell.set_core c p) = Some (true, p') /\
    Shell.core p' = c /\
    Shell.header_stamp p' = time /\
    Shell.odom_out p' = (time, odom_ c) :: Shell.odom_out p /\
    Shell.tf_out p' =
      if Shell.publish_tf_ p
      then Shell.mkStampedTransform
             (position_x (odom_ c), position_y (odom_ c), 0)
             (0, 0, sin (theta_ c / 2), cos (theta_ c / 2))
             time (Shell.odometry_frame_ p) (Shell.base_frame_ p)
           :: Shell.tf_out p
      else Shell.tf_out p.
Proof.
  intros Hi Hx Hy Hb c.
  destruct (update_odometry now dt (Shell.core p) Hi)
    as (_ & _ & Ht & Hox & Hoy & Hoz & How & _).
  fold c in Ht, Hox, Hoy, Hoz, How.
  rewrite <- Ht in Hoz, How. rewrite Hx in Hox. rewrite Hy in Hoy.
  unfold Shell.publish.
  cbn [Shell.set_core Shell.publish_tf_ Shell.broadcaster_null Shell.core
       Shell.odom_out Shell.tf_out Shell.odometry_frame_ Shell.base_frame_
       Shell.left_null Shell.right_null].
  destruct (Shell.publish_tf_ p) eqn:Hp.
  - rewrite (Hb eq_refl). eexists. split; [reflexivity|].
    cbn [Shell.core Shell.header_stamp Shell.odom_out Shell.tf_out].
    rewrite Hox, Hoy, Hoz, How. repeat split.
  - eexists. split; [reflexivity|].
    cbn [Shell.core Shell.header_stamp Shell.odom_out Shell.tf_out].
    repeat split.
Qed.

Lemma publish_after_tick_witness :
  initialized_ (Shell.core started) = true /\
  exists p',
    Shell.publish 20000000%Z
      (Shell.set_core (snd (update 10000000%Z 10000000%Z (Shell.core started)))
                      started)
    = Some (true, p') /\
    Shell.core p' = snd (update 10000000%Z 10000000%Z (Shell.core started)).
Proof.
  assert (Hi : initialized_ (Shell.core started) = true) by reflexivity.
  split; [exact Hi|].
  destruct (publish_after_tick 10000000%Z 20000000%Z 10000000%Z started Hi)
    as (p' & Hpub & Hcore & _).
  - reflexivity.
  - reflexivity.
  - intros _. reflexivity.
  - exists p'. split; [exact Hpub | exact Hcore].
Defined.

(** ** After the tick *)

(** X20.  Right after a tick at [now], [preempt] does judge the command by
    the time of that tick: on the state the tick leaves, it answers true
    exactly when [now - last_command_ >= timeout_], or the twist the tick
    issued is zero on both axes, or [force] is set. *)
Theorem preempt_after_update
    (now : Time) (dt : Duration) (force : bool) (s : BaseController R) :
  initialized_ s = true ->
  let s' := snd (update now dt s) in
  preempt force s' = true <->
  (now - last_command_ s >= timeout_ s)%Z \/
  (last_sent_x_ s' = 0 /\ last_sent_r_ s' = 0) \/
  force = true.
Proof.
  intros Hi s'.
  destruct (update_frame now dt s Hi) as (Hu & _ & _ & _ & Hc & Ht & _).
  fold s' in Hu, Hc, Ht.
  rewrite preempt_iff, Hu, Hc, Ht. reflexivity.
Qed.

Lemma preempt_after_update_witness :
  initialized_ cruising = true /\
  (preempt false (snd (update 300000000%Z 0%Z cruising)) = true <->
   (300000000 - last_command_ cruising >= timeout_ cruising)%Z \/
   (last_sent_x_ (snd (update 300000000%Z 0%Z cruising)) = 0 /\
    last_sent_r_ (snd (update 300000000%Z 0%Z cruising)) = 0) \/
   false = true).
Proof.
  split; [reflexivity|].
  apply (preempt_after_update 300000000%Z 0%Z false cruising eq_refl).
Defined.

(** ** A command that is not a number *)

Section IssuedGeneric.

Context {F : Type} `{Double F}.

Lemma update_issued_any (now : Time) (dt : Duration) (s : BaseController F) :
  initialized_ s = true ->
  let s0 := stop_on_timeout now s in
  last_sent_x_ (snd (update now dt s)) =
    ramp (desired_x_ s0) (last_sent_x_ s) (max_acceleration_x_ s)
         (toSec (now - last_update_ s)%Z) /\
  last_sent_r_ (snd (update now dt s)) =
    ramp (desired_r_ s0) (last_sent_r_ s) (max_acceleration_r_ s)
         (toSec (now - last_update_ s)%Z).
Proof.
  intros Hi s0. rewrite (update_snd now dt s Hi). cbv zeta. fold s0.
  set (s1 := limit_velocity now s0).
  set (dx := fst (fst (integrate s1))). set (dr := snd (fst (integrate s1))).
  destruct (send_issued dx dr (snd (integrate s1))) as (Hx & Hr & _).
  destruct (stop_on_timeout_frame now s) as (F1 & F2 & F3 & F4 & F5).
  fold s0 in F1, F2, F3, F4, F5.
  rewrite <- F1, <- F2, <- F3, <- F4, <- F5.
  split.
  - change (last_sent_x_ (send dx dr (snd (integrate s1))) = last_sent_x_ s1).
    rewrite Hx. reflexivity.
  - change (last_sent_r_ (send dx dr (snd (integrate s1))) = last_sent_r_ s1).
    rewrite Hr. reflexivity.
Qed.

End IssuedGeneric.

(** X19.  A NaN command is not rejected and not issued: while the command
    is fresh and its linear velocity is a NaN, both comparisons of the ramp
    are false, so every tick lowers a finite issued linear velocity by
    [max_acceleration_x_ * elapsed], with no target to stop at. *)
Theorem nan_command_runs_away
    (now : Time) (dt : Duration) (s : BaseController nan_or) (v a : R) :
  initialized_ s = true ->
  (now - last_command_ s < timeout_ s)%Z ->
  desired_x_ s = NaN ->
  last_sent_x_ s = Some v ->
  max_acceleration_x_ s = Some a ->
  last_sent_x_ (snd (update now dt s)) =
    Some (v - a * (IZR (now - last_update_ s) / 1000000000)).
Proof.
  intros Hi Hf Hd Hv Ha.
  destruct (update_issued_any now dt s Hi) as [Hx _].
  rewrite (stop_on_timeout_fresh now s Hf) in Hx.
  rewrite Hx, Hd, Hv, Ha. reflexivity.
Qed.

Lemma nan_command_runs_away_witness :
  initialized_ nan_commanded = true /\
  (100000000 - last_command_ nan_commanded < timeout_ nan_commanded)%Z /\
  desired_x_ nan_commanded = NaN /\
  last_sent_x_ (snd (update 100000000%Z 0%Z nan_commanded)) =
    Some (3 / 10
          - 75 / 100 * (IZR (100000000 - last_update_ nan_commanded)
                        / 1000000000)).
Proof.
  assert (Hf : (100000000 - last_command_ nan_commanded
                < timeout_ nan_commanded)%Z) by (simpl; lia).
  split; [reflexivity|]. split; [exact Hf|]. split; [reflexivity|].
  apply (nan_command_runs_away 100000000%Z 0%Z nan_commanded (3 / 10) (75 / 100)
           eq_refl Hf eq_refl eq_refl eq_refl).
Defined.
